(** * Verification of the FastAPI mission back end ([fastapi_back/main.py])

    The development embeds the request handlers of [main.py] as Rocq
    functions over an explicit server state (the four module-level
    tables [missions_db], [data_db], [simulations_db] and [users_db]) and
    proves properties of session resolution, login, the query engine and
    the mission simulator.

    Conventions of the embedding:
    - a Python [dict] used as a record with dynamic keys (a mission) is a
      [gmap string pyval]; the insertion-ordered table [missions_db] is an
      association list with Python's [d[k] = v] semantics;
    - Python [int] is [Z]; Python [float] is IEEE-754 binary64: a finite
      float is a rational that rounds to it, and every float operation of
      the program ([a + (b - a) * r], [round(x, 6)],
      [abs(x - y) <= 0.001]) rounds with [Float.round64]; [timedelta *
      float] is the library's exact rational product;
    - a raised exception is the [Raise] constructor of [result];
    - the third-party libraries (python-jose, passlib) are an interface
      ([Libs]) whose password functions may raise; the standard modules
      [random] and [datetime] are modelled by the functions of the modules
      [Random] and [Datetime]. *)

From Stdlib Require Import ZArith QArith Qabs Lia Lqa List Bool Permutation.
From Stdlib Require Import Strings.String Strings.Ascii.
From Stdlib Require Import Numbers.DecimalString Numbers.DecimalZ.
From stdpp Require Import base option gmap strings list.

Local Open Scope string_scope.
Local Open Scope list_scope.
Local Open Scope Z_scope.

(** ** Python values, exceptions *)

(** The values stored under the keys of a mission dictionary. *)
Inductive pyval : Type :=
| PStr (s : string)
| PFloat (q : Q)
| PInt (z : Z).

(** Exceptions the handlers can raise: FastAPI's [HTTPException], the
    interpreter's [TypeError] (comparison or subtraction between a string
    and a number) and [OverflowError] (an integer too large for a float),
    and what the password library raises, such as passlib's
    [PasswordValueError] for a password with a NUL byte. *)
Inductive exn : Type :=
| HTTPException (status_code : Z) (detail : string)
| TypeError
| OverflowError
| PasswordValueError
| LibraryError (name : string).

Inductive result (A : Type) : Type :=
| Ok (a : A)
| Raise (e : exn).
Arguments Ok {A} a.
Arguments Raise {A} e.

(** Sequencing of computations that may raise: [x ← r; k] runs [k] on the
    value of [r] and propagates an exception of [r]. *)
#[global] Instance result_ret : MRet result := fun A a => Ok a.
#[global] Instance result_bind : MBind result := fun A B k r =>
  match r with
  | Ok a => k a
  | Raise e => Raise e
  end.

(** [str(n)] for an integer, and the [%0wd] conversion. *)
Definition str_int (n : Z) : string :=
  NilEmpty.string_of_int (Z.to_int n).

Fixpoint zeros (n : nat) : string :=
  match n with
  | O => ""
  | S k => String "0" (zeros k)
  end.

Definition fmt0 (w : nat) (n : Z) : string :=
  if n <? 0
  then "-" +:+ zeros (w - 1 - String.length (str_int (- n))) +:+ str_int (- n)
  else zeros (w - String.length (str_int n)) +:+ str_int n.

(** String comparison [a >= b] of Python (code-point lexicographic). *)
Definition str_ge (a b : string) : bool := String.leb b a.

(** ** The [datetime] module *)

Module Datetime.

Record datetime : Type := mk_datetime {
  year : Z; month : Z; day : Z;
  hour : Z; minute : Z; second : Z; microsecond : Z
}.

(** A [timedelta], as its total number of microseconds
    ([timedelta._to_microseconds]). *)
Definition timedelta : Type := Z.

Definition us_per_second : Z := 1000000.
Definition us_per_day : Z := 86400 * us_per_second.

Definition timedelta_days (d : Z) : timedelta := d * us_per_day.
Definition timedelta_minutes (m : Z) : timedelta := m * 60 * us_per_second.

Definition is_leap (y : Z) : bool :=
  (y mod 4 =? 0) && (negb (y mod 100 =? 0) || (y mod 400 =? 0)).

Definition days_before_year (y : Z) : Z :=
  let y1 := y - 1 in y1 * 365 + y1 / 4 - y1 / 100 + y1 / 400.

Definition DAYS_IN_MONTH : list Z :=
  [-1; 31; 28; 31; 30; 31; 30; 31; 31; 30; 31; 30; 31].

Definition DAYS_BEFORE_MONTH : list Z :=
  [-1; 0; 31; 59; 90; 120; 151; 181; 212; 243; 273; 304; 334].

Definition tbl (t : list Z) (i : Z) : Z := nth (Z.to_nat i) t 0.

Definition b2z (b : bool) : Z := if b then 1 else 0.

Definition days_before_month (y m : Z) : Z :=
  tbl DAYS_BEFORE_MONTH m + b2z ((2 <? m) && is_leap y).

Definition ymd2ord (y m d : Z) : Z :=
  days_before_year y + days_before_month y m + d.

Definition DI400Y : Z := days_before_year 401.
Definition DI100Y : Z := days_before_year 101.
Definition DI4Y : Z := days_before_year 5.

(** [_ord2ymd]: ordinal (1 = 0001-01-01) to (year, month, day). *)
Definition ord2ymd (n0 : Z) : Z * Z * Z :=
  let n := n0 - 1 in
  let n400 := n / DI400Y in
  let n := n mod DI400Y in
  let y := n400 * 400 + 1 in
  let n100 := n / DI100Y in
  let n := n mod DI100Y in
  let n4 := n / DI4Y in
  let n := n mod DI4Y in
  let n1 := n / 365 in
  let n := n mod 365 in
  let y := y + n100 * 100 + n4 * 4 + n1 in
  if (n1 =? 4) || (n100 =? 4) then (y - 1, 12, 31)
  else
    let leapyear := (n1 =? 3) && (negb (n4 =? 24) || (n100 =? 3)) in
    let m := Z.shiftr (n + 50) 5 in
    let preceding := tbl DAYS_BEFORE_MONTH m + b2z ((2 <? m) && leapyear) in
    if n <? preceding
    then
      let m' := m - 1 in
      let preceding' :=
        preceding - (tbl DAYS_IN_MONTH m' + b2z ((m' =? 2) && leapyear)) in
      (y, m', n - preceding' + 1)
    else (y, m, n - preceding + 1).

Definition toordinal (dt : datetime) : Z :=
  ymd2ord (year dt) (month dt) (day dt).

(** Microseconds since the start of ordinal day 0. *)
Definition to_us (dt : datetime) : Z :=
  ((toordinal dt * 86400 + hour dt * 3600 + minute dt * 60 + second dt)
     * us_per_second) + microsecond dt.

Definition of_us (t : Z) : datetime :=
  let days := t / us_per_day in
  let rem := t mod us_per_day in
  let secs := rem / us_per_second in
  let us := rem mod us_per_second in
  let '(y, m, d) := ord2ymd days in
  mk_datetime y m d (secs / 3600) ((secs mod 3600) / 60) (secs mod 60) us.

(** [datetime - datetime]. *)
Definition sub (a b : datetime) : timedelta := to_us a - to_us b.

(** [datetime + timedelta].  The library raises [OverflowError] when the
    resulting ordinal leaves [1 .. 3652059]; see [add_in_range] for the
    dates the simulator builds. *)
Definition add (dt : datetime) (td : timedelta) : datetime :=
  of_us (to_us dt + td).

Definition MAXORDINAL : Z := 3652059.

(** [_divide_and_round a b]: [a / b] rounded to nearest, ties to even. *)
Definition divide_and_round (a b : Z) : Z :=
  let q := a / b in
  let r := 2 * (a mod b) in
  let greater_than_half := if 0 <? b then b <? r else r <? b in
  if greater_than_half || ((r =? b) && (q mod 2 =? 1)) then q + 1 else q.

(** [timedelta * float]: the float enters through [as_integer_ratio], so
    the product is the exact rational, rounded half-even to a
    microsecond. *)
Definition mul_float (td : timedelta) (f : Q) : timedelta :=
  divide_and_round (td * Qnum f) (Zpos (Qden f)).

(** [dt.replace(microsecond=0)]. *)
Definition replace_microsecond0 (dt : datetime) : datetime :=
  mk_datetime (year dt) (month dt) (day dt)
              (hour dt) (minute dt) (second dt) 0.

(** [dt.isoformat()] of a naive datetime. *)
Definition isoformat (dt : datetime) : string :=
  fmt0 4 (year dt) +:+ "-" +:+ fmt0 2 (month dt) +:+ "-" +:+ fmt0 2 (day dt)
  +:+ "T" +:+ fmt0 2 (hour dt) +:+ ":" +:+ fmt0 2 (minute dt)
  +:+ ":" +:+ fmt0 2 (second dt)
  +:+ (if microsecond dt =? 0 then "" else "." +:+ fmt0 6 (microsecond dt)).

End Datetime.

(** ** Floats

    A Python [float] is an IEEE-754 binary64 number.  A finite one is
    represented by a rational that rounds to it: [Float.round64 q] is the
    number itself, so a decimal such as 0.001, or the six-decimal result of
    [round(x, 6)], stands for the double nearest to it, as the literal does
    in the source.  Every operation rounds its operands and its result. *)

Inductive pyfloat : Type :=
| Finite (q : Q)
| Infinity (negative : bool)
| NaN.

Module Float.

(** [floor_log2 n d] is the integer [l] with [2^l <= n/d < 2^(l+1)], for
    [n > 0]. *)
Definition floor_log2 (n : Z) (d : positive) : Z :=
  let t := Z.log2 n - Z.log2 (Zpos d) in
  if (if 0 <=? t then 2 ^ t * Zpos d <=? n else Zpos d <=? n * 2 ^ (- t))
  then t else t - 1.

(** Round to the nearest binary64 number, ties to even, with gradual
    underflow and an unbounded exponent above: 53 significant bits, least
    exponent -1074. *)
Definition round64 (q : Q) : Q :=
  let n := Z.abs (Qnum q) in
  if n =? 0 then 0%Q
  else
    let e := Z.max (floor_log2 n (Qden q) - 52) (-1074) in
    let v :=
      if 0 <=? e
      then (Datetime.divide_and_round n (Zpos (Qden q) * 2 ^ e) * 2 ^ e) # 1
      else Datetime.divide_and_round (n * 2 ^ (- e)) (Zpos (Qden q))
           # Z.to_pos (2 ^ (- e)) in
    if Qnum q <? 0 then (- v)%Q else v.

(** The float a rational stands for; a magnitude that rounds to [2^1024]
    or more overflows to an infinity. *)
Definition of_Q (q : Q) : pyfloat :=
  let r := round64 q in
  if Qle_bool (inject_Z (2 ^ 1024)) (Qabs r)
  then Infinity (Qnum q <? 0)
  else Finite r.

Definition norm (x : pyfloat) : pyfloat :=
  match x with
  | Finite q => of_Q q
  | _ => x
  end.

(** [x - y], [abs(x)] and [x <= y] on floats, with the IEEE rules for
    infinities and NaN. *)
Definition minus (x y : pyfloat) : pyfloat :=
  match norm x, norm y with
  | NaN, _ | _, NaN => NaN
  | Finite a, Finite b => of_Q (a - b)
  | Infinity s, Finite _ => Infinity s
  | Finite _, Infinity s => Infinity (negb s)
  | Infinity s, Infinity s' => if Bool.eqb s s' then NaN else Infinity s
  end.

Definition abs (x : pyfloat) : pyfloat :=
  match norm x with
  | Finite a => Finite (Qabs a)
  | Infinity _ => Infinity false
  | NaN => NaN
  end.

Definition leb (x y : pyfloat) : bool :=
  match norm x, norm y with
  | NaN, _ | _, NaN => false
  | Finite a, Finite b => Qle_bool a b
  | Infinity s, Finite _ => s
  | Finite _, Infinity s => negb s
  | Infinity s, Infinity s' => s || negb s'
  end.

Definition is_zero (x : pyfloat) : bool :=
  match norm x with
  | Finite a => Qeq_bool a 0
  | _ => false
  end.

(** Arithmetic on finite floats whose result stays finite (the simulator's
    operands are below [2^7] in magnitude). *)
Definition add (x y : Q) : Q := round64 (round64 x + round64 y).
Definition sub (x y : Q) : Q := round64 (round64 x - round64 y).
Definition mul (x y : Q) : Q := round64 (round64 x * round64 y).

End Float.

(** Python truthiness of a value ([bool(v)]). *)
Definition truthy (v : pyval) : bool :=
  match v with
  | PStr s => negb (String.eqb s "")
  | PFloat q => negb (Float.is_zero (Finite q))
  | PInt z => negb (z =? 0)
  end.

(** ** The [random] module

    The generator is an oracle: an infinite tape of raw draws and a cursor.
    [randbelow n] reduces the next raw draw into [0, n), so every value of
    the range is a possible outcome and nothing is assumed about the
    distribution. *)

Module Random.

Record Rng : Type := mk_rng { tape : nat → N; cursor : nat }.

Definition randbelow (n : N) (g : Rng) : N * Rng :=
  ((tape g (cursor g) mod n)%N, mk_rng (tape g) (S (cursor g))).

(** [random.random()]: a 53-bit integer over [2^53], in [0, 1). *)
Definition random (g : Rng) : Q * Rng :=
  let '(k, g') := randbelow (2 ^ 53)%N g in
  (Z.of_N k # 9007199254740992, g').

(** [random.choice(seq)] is [seq[randbelow(len(seq))]]. *)
Definition choice {A : Type} (dflt : A) (seq : list A) (g : Rng) : A * Rng :=
  let '(k, g') := randbelow (N.of_nat (length seq)) g in
  (nth (N.to_nat k) seq dflt, g').

(** [random.randint(a, b)] is [a + randbelow(b - a + 1)]. *)
Definition randint (a b : Z) (g : Rng) : Z * Rng :=
  let '(k, g') := randbelow (Z.to_N (b - a + 1)) g in
  (a + Z.of_N k, g').

(** [random.uniform(a, b)] is [a + (b - a) * random()], in float
    arithmetic. *)
Definition uniform (a b : Q) (g : Rng) : Q * Rng :=
  let '(r, g') := random g in
  (Float.add a (Float.mul (Float.sub b a) r), g').

End Random.

(** [round(x, ndigits)] on a float, for [ndigits >= 0]: the exact value of
    the float is rounded to the nearest multiple of [10^-ndigits], ties to
    even, and the result is the float nearest to that decimal. *)
Definition py_round (x : Q) (ndigits : Z) : Q :=
  let v := Float.round64 x in
  Datetime.divide_and_round (Qnum v * 10 ^ ndigits) (Zpos (Qden v))
    # Z.to_pos (10 ^ ndigits).

(** ** Third-party libraries

    [passlib]'s bcrypt context and [python-jose], as an interface.  The salt
    that [pwd_context.hash] draws is an explicit argument.  Both password
    functions may raise (passlib refuses some passwords), and nothing is
    assumed of which passwords a hash verifies (bcrypt reads only the
    first 72 bytes).  [jwt_decode] returns [None] where the library raises
    [JWTError]. *)

Class Libs : Type := {
  pwd_context_hash : string → string → result string;
  pwd_context_verify : string → string → result bool;
  jose_header : string → string;
  jose_claims : gmap string pyval → string;
  jose_signature : string → string → string → string;
  jwt_decode : string → string → list string → option (gmap string pyval)
}.

(** [jwt.encode]: the JWS compact serialisation,
    [header "." claims "." signature], each part base64url text. *)
Definition jwt_encode `{Libs} (claims : gmap string pyval)
    (key algorithm : string) : string :=
  let signing_input := jose_header algorithm +:+ "." +:+ jose_claims claims in
  signing_input +:+ "." +:+ jose_signature algorithm key signing_input.

(** ** Data model *)

Module UploadData.
Record t : Type := mk {
  mission_id : string;
  timestamp : string;
  gps_lat : pyfloat;
  gps_lon : pyfloat;
  gps_alt : option pyfloat;
  sensor_type : string;
  data_url : option string
}.
End UploadData.

Module UserSignup.
Record t : Type := mk {
  first_name : string;
  last_name : string;
  email : string;
  password : string
}.
End UserSignup.

Module UserLogin.
Record t : Type := mk {
  email : string;
  password : string
}.
End UserLogin.

(** An entry of [users_db]: the dictionary with the four keys that [signup]
    writes. *)
Module User.
Record t : Type := mk {
  first_name : string;
  last_name : string;
  email : string;
  password : string
}.
End User.

(** A mission is a dictionary with string keys. *)
Abbreviation Mission := (gmap string pyval).

(** An entry of [simulations_db]. *)
Module SimulationRun.
Record t : Type := mk {
  simulation_id : Z;
  missions_generated : Z;
  timestamp : string;
  missions : list Mission
}.
End SimulationRun.

(** An insertion-ordered Python [dict] with string keys. *)
Section Dict.
Context {V : Type}.

Fixpoint dict_get (k : string) (d : list (string * V)) : option V :=
  match d with
  | [] => None
  | (k', v) :: t => if String.eqb k' k then Some v else dict_get k t
  end.

Definition dict_contains (k : string) (d : list (string * V)) : bool :=
  match dict_get k d with Some _ => true | None => false end.

(** [d[k] = v]: an existing key keeps its position, a new key is
    appended. *)
Fixpoint dict_set (k : string) (v : V) (d : list (string * V))
    : list (string * V) :=
  match d with
  | [] => [(k, v)]
  | (k', v') :: t =>
      if String.eqb k' k then (k', v) :: t else (k', v') :: dict_set k v t
  end.

Definition dict_keys (d : list (string * V)) : list string := map fst d.
Definition dict_values (d : list (string * V)) : list V := map snd d.
End Dict.

(** The module-level tables. *)
Record State : Type := mk_state {
  missions_db : list (string * Mission);
  data_db : list UploadData.t;
  simulations_db : list SimulationRun.t;
  users_db : gmap string User.t
}.

Definition initial_state : State := mk_state [] [] [] ∅.

Definition SECRET_KEY : string := "SUPER_SECRET_KEY_123".
Definition ALGORITHM : string := "HS256".

(** ** Responses *)

Record StatusMessage : Type := mk_status_message {
  sm_status : string;
  sm_message : string
}.

Record LoginResponse : Type := mk_login_response {
  lr_status : string;
  access_token : string;
  token_type : string
}.

Record MeResponse : Type := mk_me_response {
  me_email : string;
  me_first_name : string;
  me_last_name : string
}.

Record UploadResponse : Type := mk_upload_response {
  up_status : string;
  up_message : string;
  received : UploadData.t
}.

Record Filters : Type := mk_filters {
  f_start_date : option string;
  f_sensor_type : option string;
  f_lat : option pyfloat;
  f_lon : option pyfloat
}.

Record QueryResponse : Type := mk_query_response {
  filters_applied : Filters;
  total_found : Z;
  results : list Mission
}.

(** ** Security helpers and session resolution (lines 35-65) *)

Section Handlers.
Context `{L : Libs}.

Definition hash_password (password salt : string) : result string :=
  pwd_context_hash password salt.

Definition verify_password (password hashed : string) : result bool :=
  pwd_context_verify password hashed.

Definition create_jwt (data : gmap string pyval) : string :=
  jwt_encode data SECRET_KEY ALGORITHM.

Definition decode_jwt (token : string) : option (gmap string pyval) :=
  jwt_decode token SECRET_KEY [ALGORITHM].

(** [payload.get("sub")] is [None], or a value that is a key of
    [users_db] only when it is a string. *)
Definition get_current_user (st : State) (token : string) : result User.t :=
  match decode_jwt token with
  | None => Raise (HTTPException 401 "Invalid or expired token")
  | Some payload =>
      match payload !! "sub" with
      | Some (PStr email) =>
          match users_db st !! email with
          | None => Raise (HTTPException 404 "User not found")
          | Some u => Ok u
          end
      | _ => Raise (HTTPException 404 "User not found")
      end
  end.

(** ** Sign-up, login, me (lines 118-161) *)

(** The hash is computed while the new entry is built, before the
    assignment to [users_db]: if it raises, nothing is stored. *)
Definition signup (user : UserSignup.t) (salt : string) (st : State)
    : result (StatusMessage * State) :=
  match users_db st !! UserSignup.email user with
  | Some _ => Raise (HTTPException 400 "Email already registered")
  | None =>
      hashed ← hash_password (UserSignup.password user) salt;
      let entry :=
        User.mk (UserSignup.first_name user) (UserSignup.last_name user)
                (UserSignup.email user) hashed in
      Ok (mk_status_message "success" "User registered successfully",
          mk_state (missions_db st) (data_db st) (simulations_db st)
                   (<[UserSignup.email user := entry]> (users_db st)))
  end.

(** An entry of [users_db] is a dictionary with four keys, hence truthy:
    [not user] holds exactly when [users_db.get] returned [None]. *)
Definition login (credentials : UserLogin.t) (st : State)
    : result LoginResponse :=
  match users_db st !! UserLogin.email credentials with
  | None => Raise (HTTPException 404 "User not found")
  | Some user =>
      verified ← verify_password (UserLogin.password credentials)
                                 (User.password user);
      if negb verified
      then Raise (HTTPException 401 "Incorrect password")
      else
        let token :=
          create_jwt {[ "sub" := PStr (UserLogin.email credentials) ]} in
        Ok (mk_login_response "success" token "Bearer")
  end.

Definition get_me (token : string) (st : State) : result MeResponse :=
  user ← get_current_user st token;
  Ok (mk_me_response (User.email user) (User.first_name user)
                     (User.last_name user)).

(** ** Upload and mission status (lines 168-182) *)

Definition upload_data (data : UploadData.t) (token : string) (st : State)
    : result (UploadResponse * State) :=
  _ ← get_current_user st token;
  Ok (mk_upload_response "success" "Data received successfully" data,
      mk_state (missions_db st) (data_db st ++ [data]) (simulations_db st)
               (users_db st)).

Definition get_mission_status (mission_id : string) (token : string)
    (st : State) : result Mission :=
  _ ← get_current_user st token;
  match dict_get mission_id (missions_db st) with
  | None =>
      Raise (HTTPException 404
               ("Mission '" +:+ mission_id +:+ "' not found"))
  | Some m => Ok m
  end.

(** ** The query engine (lines 185-247) *)

(** A list comprehension [[r for r in l if cond(r)]] whose condition may
    raise. *)
Fixpoint comprehension {A : Type} (cond : A → result bool) (l : list A)
    : result (list A) :=
  match l with
  | [] => Ok []
  | r :: t =>
      b ← cond r;
      rest ← comprehension cond t;
      Ok (if b : bool then r :: rest else rest)
  end.

(** [r.get("timestamp") and r["timestamp"] >= start_date] *)
Definition date_cond (start_date : string) (r : Mission) : result bool :=
  match r !! "timestamp" with
  | None => Ok false
  | Some v =>
      if truthy v
      then match v with
           | PStr t => Ok (str_ge t start_date)
           | _ => Raise TypeError
           end
      else Ok false
  end.

(** [r.get("sensor_type") == sensor_type] *)
Definition sensor_cond (sensor_type : string) (r : Mission) : result bool :=
  Ok (match r !! "sensor_type" with
      | Some (PStr s) => String.eqb s sensor_type
      | _ => false
      end).

(** The literal [0.001]. *)
Definition tolerance : Q := 1 # 1000.

(** The left operand of [r[key] - x] as a float: an integer is converted,
    with [OverflowError] when it is too large; a string cannot be
    subtracted from. *)
Definition as_number (v : pyval) : result pyfloat :=
  match v with
  | PFloat q => Ok (Finite q)
  | PInt z =>
      match Float.of_Q (inject_Z z) with
      | Finite q => Ok (Finite q)
      | _ => Raise OverflowError
      end
  | PStr _ => Raise TypeError
  end.

(** [abs(a - x) <= tolerance] on floats. *)
Definition near (a x : pyfloat) : bool :=
  Float.leb (Float.abs (Float.minus a x)) (Finite tolerance).

(** [key in r and abs(r[key] - x) <= tolerance] *)
Definition near_cond (key : string) (x : pyfloat) (r : Mission)
    : result bool :=
  match r !! key with
  | None => Ok false
  | Some v =>
      a ← as_number v;
      Ok (near a x)
  end.

(** Truthiness of an optional string parameter ([if start_date:]). *)
Definition given (o : option string) : option string :=
  match o with
  | Some s => if String.eqb s "" then None else Some s
  | None => None
  end.

Definition query_data (start_date sensor_type : option string)
    (lat lon : option pyfloat) (token : string) (st : State)
    : result QueryResponse :=
  _ ← get_current_user st token;
  let results := dict_values (missions_db st) in
  results ← match given start_date with
            | Some sd => comprehension (date_cond sd) results
            | None => Ok results
            end;
  results ← match given sensor_type with
            | Some ty => comprehension (sensor_cond ty) results
            | None => Ok results
            end;
  results ← match lat with
            | Some x => comprehension (near_cond "gps_lat" x) results
            | None => Ok results
            end;
  results ← match lon with
            | Some x => comprehension (near_cond "gps_lon" x) results
            | None => Ok results
            end;
  Ok (mk_query_response (mk_filters start_date sensor_type lat lon)
                        (Z.of_nat (length results)) results).

(** ** The simulator (lines 253-324) *)

Definition mission_types : list string :=
  ["thermal"; "multispectral"; "lidar"].

Definition statuses : list string :=
  ["pending"; "processing"; "completed"].

Definition jan1 : Datetime.datetime := Datetime.mk_datetime 2025 1 1 0 0 0 0.
Definition dec31 : Datetime.datetime :=
  Datetime.mk_datetime 2025 12 31 0 0 0 0.

Definition render (dt : Datetime.datetime) : string :=
  Datetime.isoformat (Datetime.replace_microsecond0 dt) +:+ "Z".

(** One pass through the body of the [for] loop (lines 264-305): the new
    mission, the table after [missions_db[mission_id] = mission] and the
    generator after the draws. *)
Definition simulate_iteration (db : list (string * Mission))
    (g : Random.Rng) : Mission * list (string * Mission) * Random.Rng :=
  let next_id := Z.of_nat (length db) + 1 in
  let mission_id := "M" +:+ str_int (1000 + next_id) in
  let '(r, g) := Random.random g in
  let start_time_dt :=
    Datetime.add jan1 (Datetime.mul_float (Datetime.sub dec31 jan1) r) in
  let start_time := render start_time_dt in
  let '(status, g) := Random.choice "" statuses g in
  let '(sensor_type, g) := Random.choice "" mission_types g in
  let '(x, g) := Random.uniform 4 6 g in
  let gps_lat := py_round x 6 in
  let '(y, g) := Random.uniform (-75.5) (-73.5) g in
  let gps_lon := py_round y 6 in
  let '(progress, g) := Random.randint 0 100 g in
  let mission : Mission :=
    <["progress" := PInt progress]>
    (<["status" := PStr status]>
    (<["gps_lon" := PFloat gps_lon]>
    (<["gps_lat" := PFloat gps_lat]>
    (<["start_time" := PStr start_time]>
    (<["timestamp" := PStr start_time]>
    (<["type" := PStr sensor_type]>
    (<["sensor_type" := PStr sensor_type]>
    (<["mission_id" := PStr mission_id]> ∅)))))))) in
  let '(mission, g) :=
    if String.eqb status "completed"
    then
      let '(mins, g) := Random.randint 1 180 g in
      let end_time_dt :=
        Datetime.add start_time_dt (Datetime.timedelta_minutes mins) in
      (<["end_time" := PStr (render end_time_dt)]> mission, g)
    else (mission, g) in
  (mission, dict_set mission_id mission db, g).

(** The loop [for _ in range(num)], with [n] passes left. *)
Fixpoint simulate_loop (n : nat) (db : list (string * Mission))
    (created : list Mission) (g : Random.Rng)
    : list (string * Mission) * list Mission * Random.Rng :=
  match n with
  | O => (db, created, g)
  | S k =>
      let '(mission, db', g') := simulate_iteration db g in
      simulate_loop k db' (created ++ [mission]) g'
  end.

(** [now] is the value of [datetime.datetime.utcnow()]. *)
Definition simulate_missions (num : Z) (token : string) (g : Random.Rng)
    (now : Datetime.datetime) (st : State)
    : result (SimulationRun.t * State) :=
  _ ← get_current_user st token;
  let '(db, created_missions, _) :=
    simulate_loop (Z.to_nat num) (missions_db st) [] g in
  let simulation_result :=
    SimulationRun.mk (Z.of_nat (length (simulations_db st)) + 1) num
                     (Datetime.isoformat now +:+ "Z") created_missions in
  Ok (simulation_result,
      mk_state db (data_db st) (simulations_db st ++ [simulation_result])
               (users_db st)).

Definition get_simulations (token : string) (st : State)
    : result (list SimulationRun.t) :=
  _ ← get_current_user st token;
  Ok (simulations_db st).

(** ** The public operations as one transition function *)

Inductive request : Type :=
| ReqSignup (user : UserSignup.t) (salt : string)
| ReqLogin (credentials : UserLogin.t)
| ReqMe (token : string)
| ReqUpload (data : UploadData.t) (token : string)
| ReqMissionStatus (mission_id : string) (token : string)
| ReqQuery (start_date sensor_type : option string)
           (lat lon : option pyfloat) (token : string)
| ReqSimulate (num : Z) (token : string) (g : Random.Rng)
              (now : Datetime.datetime)
| ReqSimulations (token : string).

Inductive response : Type :=
| RespStatus (r : StatusMessage)
| RespLogin (r : LoginResponse)
| RespMe (r : MeResponse)
| RespUpload (r : UploadResponse)
| RespMission (r : Mission)
| RespQuery (r : QueryResponse)
| RespSimulation (r : SimulationRun.t)
| RespSimulations (r : list SimulationRun.t)
| RespError (e : exn).

Definition writes {A : Type} (wrap : A → response) (st : State)
    (r : result (A * State)) : response * State :=
  match r with
  | Ok (a, st') => (wrap a, st')
  | Raise e => (RespError e, st)
  end.

Definition reads {A : Type} (wrap : A → response) (st : State)
    (r : result A) : response * State :=
  match r with
  | Ok a => (wrap a, st)
  | Raise e => (RespError e, st)
  end.

(** Every handler raises, if at all, before its first assignment to a
    table, so a failed request leaves the state as it was. *)
Definition handle (req : request) (st : State) : response * State :=
  match req with
  | ReqSignup user salt => writes RespStatus st (signup user salt st)
  | ReqLogin credentials => reads RespLogin st (login credentials st)
  | ReqMe token => reads RespMe st (get_me token st)
  | ReqUpload data token => writes RespUpload st (upload_data data token st)
  | ReqMissionStatus mission_id token =>
      reads RespMission st (get_mission_status mission_id token st)
  | ReqQuery start_date sensor_type lat lon token =>
      reads RespQuery st (query_data start_date sensor_type lat lon token st)
  | ReqSimulate num token g now =>
      writes RespSimulation st (simulate_missions num token g now st)
  | ReqSimulations token =>
      reads RespSimulations st (get_simulations token st)
  end.

(** The states the server can be in: the empty tables, then any sequence
    of requests. *)
Inductive reachable : State → Prop :=
| reachable_initial : reachable initial_state
| reachable_handle req st :
    reachable st → reachable (snd (handle req st)).

End Handlers.

(** * Properties *)

(** ** Strings and identifiers *)

Lemma str_int_inj (a b : Z) : str_int a = str_int b → a = b.
Proof.
  unfold str_int. intros E.
  apply DecimalZ.to_int_inj.
  assert (Some (Z.to_int a) = Some (Z.to_int b)) as S.
  { rewrite <- (NilEmpty.isi (Z.to_int a)), <- (NilEmpty.isi (Z.to_int b)).
    now rewrite E. }
  now inversion S.
Qed.

(** The identifier that the [i]-th mission ever created receives. *)
Definition mission_key (i : nat) : string :=
  "M" +:+ str_int (1000 + Z.of_nat i).

Lemma mission_key_inj (i j : nat) : mission_key i = mission_key j → i = j.
Proof.
  unfold mission_key. cbn. intros E. injection E as E.
  apply str_int_inj in E. lia.
Qed.

Lemma string_eqb_false (a b : string) : a ≠ b → String.eqb a b = false.
Proof. intros N. now apply String.eqb_neq. Qed.

(** ** The ordered dictionary *)

Section DictFacts.
Context {V : Type}.
Implicit Types (d : list (string * V)) (k : string) (v : V).

Lemma dict_get_None k d : dict_get k d = None ↔ k ∉ dict_keys d.
Proof.
  induction d as [|[k' v'] t IH]; cbn.
  - split; [intros _; apply not_elem_of_nil | done].
  - destruct (String.eqb_spec k' k) as [->|N].
    + split; [done | intros X; exfalso; apply X; left].
    + rewrite IH, not_elem_of_cons.
      split; [intros X; split; [congruence | done] | now intros [_ X]].
Qed.

Lemma dict_set_fresh k v d :
  k ∉ dict_keys d → dict_set k v d = d ++ [(k, v)].
Proof.
  induction d as [|[k' v'] t IH]; cbn; [done|].
  rewrite not_elem_of_cons. intros [N X].
  rewrite string_eqb_false by congruence. now rewrite IH.
Qed.

Lemma dict_get_app_Some k v d d' :
  dict_get k d = Some v → dict_get k (d ++ d') = Some v.
Proof.
  induction d as [|[k' v'] t IH]; cbn; [done|].
  destruct (String.eqb k' k); auto.
Qed.

Lemma dict_values_app d d' :
  dict_values (d ++ d') = dict_values d ++ dict_values d'.
Proof. apply map_app. Qed.

Lemma dict_get_values k v d : dict_get k d = Some v → v ∈ dict_values d.
Proof.
  induction d as [|[k' v'] t IH]; cbn; [done|].
  destruct (String.eqb k' k).
  - intros [= ->]. left.
  - intros X. right. auto.
Qed.
End DictFacts.

(** The keys of [missions_db] are [M1001], [M1002], ... in insertion
    order. *)
Definition ids_in_sequence (db : list (string * Mission)) : Prop :=
  dict_keys db = map mission_key (seq 1 (length db)).

Lemma next_key_fresh (db : list (string * Mission)) :
  ids_in_sequence db → mission_key (S (length db)) ∉ dict_keys db.
Proof.
  unfold ids_in_sequence. intros -> X.
  apply list_elem_of_fmap in X as (i & E & Hi).
  apply mission_key_inj in E. subst i.
  apply list_elem_of_In, in_seq in Hi. lia.
Qed.

Lemma ids_in_sequence_snoc (db : list (string * Mission)) (m : Mission) :
  ids_in_sequence db →
  ids_in_sequence (db ++ [(mission_key (S (length db)), m)]).
Proof.
  unfold ids_in_sequence, dict_keys. intros E.
  rewrite map_app, E, length_app. cbn [length map fst].
  replace (length db + 1)%nat with (S (length db)) by lia.
  now rewrite seq_S, map_app.
Qed.

(** ** Arithmetic of the calendar *)

(** A check over the first [n] integers extends to the whole range. *)
Lemma forall_below (P : Z → bool) (n : nat) :
  forallb P (map Z.of_nat (seq 0 n)) = true →
  ∀ d, 0 ≤ d < Z.of_nat n → P d = true.
Proof.
  intros F d Hd. rewrite forallb_forall in F. apply F.
  apply in_map_iff. exists (Z.to_nat d). split; [lia|].
  apply in_seq. lia.
Qed.

Lemma divide_and_round_bounds (a b lo hi : Z) :
  0 < b → lo * b ≤ a ≤ hi * b →
  lo ≤ Datetime.divide_and_round a b ≤ hi.
Proof.
  intros Hb [Hlo Hhi]. unfold Datetime.divide_and_round.
  pose proof (Z.div_mod a b ltac:(lia)) as E.
  pose proof (Z.mod_pos_bound a b Hb) as [M0 M1].
  set (q := a / b) in *. set (m := a mod b) in *.
  assert (lo ≤ q) by nia.
  assert (q ≤ hi) by nia.
  destruct (0 <? b) eqn:B; [|lia].
  destruct (b <? 2 * m) eqn:G; cbn [orb].
  - apply Z.ltb_lt in G. split; [lia|]. nia.
  - destruct (2 * m =? b) eqn:T; cbn [andb]; [|lia].
    destruct (q mod 2 =? 1); [|lia].
    apply Z.eqb_eq in T. split; [lia|]. nia.
Qed.

Module DatetimeFacts.
Import Datetime.

(** Ordinal of 2025-01-01. *)
Definition ord2025 : Z := 739252.

Definition day_ok (d : Z) : bool :=
  let '(y, m, dd) := ord2ymd (ord2025 + d) in
  (y =? 2025) && (1 <=? m) && (m <=? 12) && (1 <=? dd) && (dd <=? 31)
  && (ymd2ord y m dd =? ord2025 + d).

Lemma day_ok_2025 (d : Z) : 0 ≤ d < 365 → day_ok d = true.
Proof. apply (forall_below day_ok 365). vm_compute. reflexivity. Qed.

(** Month and day of the month as one number, increasing through the
    year. *)
Definition day_rank (d : Z) : Z :=
  let '(_, m, dd) := ord2ymd (ord2025 + d) in m * 100 + dd.

Definition day_rank_step (d : Z) : bool := day_rank d <? day_rank (d + 1).

Lemma day_rank_succ (d : Z) : 0 ≤ d < 364 → day_rank d < day_rank (d + 1).
Proof.
  intros Hd. apply Z.ltb_lt.
  apply (forall_below day_rank_step 364); [vm_compute; reflexivity | lia].
Qed.

Lemma day_rank_mono (d1 d2 : Z) :
  0 ≤ d1 → d1 < d2 → d2 < 365 → day_rank d1 < day_rank d2.
Proof.
  intros H0 H1 H2.
  replace d2 with (d1 + 1 + Z.of_nat (Z.to_nat (d2 - d1 - 1))) in * by lia.
  induction (Z.to_nat (d2 - d1 - 1)) as [|k IH].
  - rewrite Z.add_0_r. apply day_rank_succ. lia.
  - pose proof (day_rank_succ (d1 + 1 + Z.of_nat k) ltac:(lia)).
    replace (d1 + 1 + Z.of_nat (S k)) with (d1 + 1 + Z.of_nat k + 1) by lia.
    specialize (IH ltac:(lia) ltac:(lia)). lia.
Qed.

Lemma to_us_jan1 : to_us (mk_datetime 2025 1 1 0 0 0 0) = ord2025 * us_per_day.
Proof. reflexivity. Qed.

Lemma sub_dec31_jan1 :
  sub (mk_datetime 2025 12 31 0 0 0 0) (mk_datetime 2025 1 1 0 0 0 0)
  = 364 * us_per_day.
Proof. reflexivity. Qed.

(** The components of the instant [u] microseconds into 2025. *)
Lemma of_us_2025 (u : Z) :
  of_us (ord2025 * us_per_day + u) =
  let secs := (u mod us_per_day) / us_per_second in
  let '(y, m, d) := ord2ymd (ord2025 + u / us_per_day) in
  mk_datetime y m d (secs / 3600) ((secs mod 3600) / 60) (secs mod 60)
              ((u mod us_per_day) mod us_per_second).
Proof.
  unfold of_us.
  rewrite (Z.add_comm (ord2025 * us_per_day) u).
  rewrite Z.div_add, Z.mod_add by (unfold us_per_day, us_per_second; lia).
  now rewrite (Z.add_comm (u / us_per_day)).
Qed.

Lemma to_of_us_2025 (u : Z) :
  0 ≤ u < 365 * us_per_day →
  to_us (of_us (ord2025 * us_per_day + u)) = ord2025 * us_per_day + u.
Proof.
  intros Hu. rewrite of_us_2025. cbv zeta.
  assert (0 ≤ u / us_per_day < 365) as Hd.
  { unfold us_per_day, us_per_second in *.
    split; [apply Z.div_pos; lia | apply Z.div_lt_upper_bound; lia]. }
  pose proof (day_ok_2025 _ Hd) as K. unfold day_ok in K.
  destruct (ord2ymd (ord2025 + u / us_per_day)) as [[y m] d].
  unfold to_us, toordinal. cbn [year month day hour minute second microsecond].
  repeat (apply andb_prop in K as [K ?]).
  replace (ymd2ord y m d) with (ord2025 + u / us_per_day) by lia.
  unfold us_per_day, us_per_second in *.
  Z.div_mod_to_equations. lia.
Qed.

End DatetimeFacts.

(** ** Lexicographic comparison of rendered instants *)

Lemma append_assoc (a b c : string) : (a +:+ b) +:+ c = a +:+ (b +:+ c).
Proof.
  induction a as [|x a IH]; [done|].
  change (String x ((a +:+ b) +:+ c) = String x (a +:+ (b +:+ c))).
  now rewrite IH.
Qed.

Lemma append_empty_r (a : string) : a +:+ "" = a.
Proof.
  induction a as [|x a IH]; [done|].
  change (String x (a +:+ "") = String x a). now rewrite IH.
Qed.

Lemma length_append (a b : string) :
  String.length (a +:+ b) = (String.length a + String.length b)%nat.
Proof.
  induction a as [|x a IH]; [done|].
  change (S (String.length (a +:+ b))
          = S (String.length a + String.length b)).
  now rewrite IH.
Qed.

Lemma ascii_compare_refl (c : ascii) : Ascii.compare c c = Eq.
Proof. unfold Ascii.compare. apply N.compare_refl. Qed.

Lemma compare_append (a a' b b' : string) :
  String.length a = String.length a' →
  String.compare (a +:+ b) (a' +:+ b') =
  match String.compare a a' with
  | Eq => String.compare b b'
  | c => c
  end.
Proof.
  revert a'. induction a as [|x a IH]; intros [|x' a'] E; try discriminate.
  - reflexivity.
  - injection E as E.
    change (match Ascii.compare x x' with
            | Eq => String.compare (a +:+ b) (a' +:+ b')
            | c => c
            end =
            match match Ascii.compare x x' with
                  | Eq => String.compare a a'
                  | c => c
                  end with
            | Eq => String.compare b b'
            | c => c
            end).
    destruct (Ascii.compare x x'); auto.
Qed.

Lemma compare_same_head (c : ascii) (x y : string) :
  String.compare (String c x) (String c y) = String.compare x y.
Proof. cbn. now rewrite ascii_compare_refl. Qed.

Lemma compare_refl (p : string) : String.compare p p = Eq.
Proof.
  induction p as [|c p IH]; [done|]. now rewrite compare_same_head.
Qed.

Lemma compare_same_prefix (p x y : string) :
  String.compare (p +:+ x) (p +:+ y) = String.compare x y.
Proof. rewrite compare_append by done. now rewrite compare_refl. Qed.

Lemma prefix_append (p x : string) : String.prefix p (p +:+ x) = true.
Proof.
  induction p as [|a p IH]; [now destruct x|].
  change (String a p +:+ x) with (String a (p +:+ x)). cbn [String.prefix].
  now destruct (ascii_dec a a).
Qed.

(** Two-digit fields. *)
Definition pad2_ok (n' n : Z) : bool :=
  match String.compare (fmt0 2 n) (fmt0 2 n'), n ?= n' with
  | Eq, Eq | Lt, Lt | Gt, Gt => Nat.eqb (String.length (fmt0 2 n)) 2
  | _, _ => false
  end.

Lemma pad2_facts (n n' : Z) :
  0 ≤ n < 100 → 0 ≤ n' < 100 →
  String.length (fmt0 2 n) = 2%nat
  ∧ String.compare (fmt0 2 n) (fmt0 2 n') = (n ?= n').
Proof.
  intros Hn Hn'.
  assert (forallb (fun n' => forallb (pad2_ok n') (map Z.of_nat (seq 0 100)))
            (map Z.of_nat (seq 0 100)) = true) as F
    by (vm_compute; reflexivity).
  pose proof (forall_below _ 100 F n' ltac:(lia)) as F'. cbv beta in F'.
  pose proof (forall_below _ 100 F' n ltac:(lia)) as K.
  unfold pad2_ok in K.
  destruct (String.compare (fmt0 2 n) (fmt0 2 n')), (n ?= n');
    first [ discriminate K
          | exact (conj (proj1 (Nat.eqb_eq _ _) K) eq_refl) ].
Qed.

Lemma compare_pad2 (n n' : Z) (x y : string) :
  0 ≤ n < 100 → 0 ≤ n' < 100 →
  String.compare (fmt0 2 n +:+ x) (fmt0 2 n' +:+ y) =
  match n ?= n' with
  | Eq => String.compare x y
  | c => c
  end.
Proof.
  intros Hn Hn'.
  destruct (pad2_facts n n' Hn Hn') as [L C].
  destruct (pad2_facts n' n' Hn' Hn') as [L' _].
  rewrite compare_append by congruence. now rewrite C.
Qed.

Module RenderFacts.
Import Datetime DatetimeFacts.

(** The text of an instant of 2025 with whole seconds. *)
Definition stamp (m d h mi s : Z) : string :=
  "2025-" +:+ fmt0 2 m +:+ "-" +:+ fmt0 2 d +:+ "T" +:+ fmt0 2 h
  +:+ ":" +:+ fmt0 2 mi +:+ ":" +:+ fmt0 2 s +:+ "Z".

Lemma isoformat_2025 (m d h mi s us : Z) :
  isoformat (replace_microsecond0 (mk_datetime 2025 m d h mi s us)) +:+ "Z"
  = stamp m d h mi s.
Proof.
  unfold isoformat, replace_microsecond0, stamp.
  cbn [year month day hour minute second microsecond].
  change (fmt0 4 2025) with "2025". change (0 =? 0) with true. cbv iota.
  rewrite !append_assoc. reflexivity.
Qed.

Definition field_order (a b : Z) (rest : comparison) : comparison :=
  match a ?= b with
  | Eq => rest
  | c => c
  end.

Lemma stamp_compare (m d h mi s m' d' h' mi' s' : Z) :
  0 ≤ m < 100 → 0 ≤ d < 100 → 0 ≤ h < 100 → 0 ≤ mi < 100 → 0 ≤ s < 100 →
  0 ≤ m' < 100 → 0 ≤ d' < 100 → 0 ≤ h' < 100 → 0 ≤ mi' < 100 →
  0 ≤ s' < 100 →
  String.compare (stamp m d h mi s) (stamp m' d' h' mi' s') =
  field_order m m' (field_order d d' (field_order h h'
    (field_order mi mi' (field_order s s' Eq)))).
Proof.
  intros. unfold stamp, field_order.
  rewrite compare_same_prefix.
  rewrite compare_pad2 by done. destruct (m ?= m'); [|done..].
  rewrite compare_same_prefix, compare_pad2 by done.
  destruct (d ?= d'); [|done..].
  rewrite compare_same_prefix, compare_pad2 by done.
  destruct (h ?= h'); [|done..].
  rewrite compare_same_prefix, compare_pad2 by done.
  destruct (mi ?= mi'); [|done..].
  rewrite compare_same_prefix, compare_pad2 by done.
  destruct (s ?= s'); [|done..].
  apply compare_refl.
Qed.

Lemma stamp_length (m d h mi s : Z) :
  0 ≤ m < 100 → 0 ≤ d < 100 → 0 ≤ h < 100 → 0 ≤ mi < 100 → 0 ≤ s < 100 →
  String.length (stamp m d h mi s) = 20%nat.
Proof.
  intros Hm Hd Hh Hmi Hs. unfold stamp. rewrite !length_append.
  destruct (pad2_facts m m Hm Hm) as [-> _].
  destruct (pad2_facts d d Hd Hd) as [-> _].
  destruct (pad2_facts h h Hh Hh) as [-> _].
  destruct (pad2_facts mi mi Hmi Hmi) as [-> _].
  destruct (pad2_facts s s Hs Hs) as [-> _].
  reflexivity.
Qed.

End RenderFacts.

Module InstantFacts.
Import Datetime DatetimeFacts RenderFacts.

(** The instant [u] microseconds after 2025-01-01T00:00:00. *)
Definition instant (u : Z) : datetime := of_us (ord2025 * us_per_day + u).

Lemma instant_fields (u : Z) :
  0 ≤ u < 365 * us_per_day →
  ∃ m d h mi s,
    instant u = mk_datetime 2025 m d h mi s
                  ((u mod us_per_day) mod us_per_second)
    ∧ (1 ≤ m ≤ 12 ∧ 1 ≤ d ≤ 31 ∧ 0 ≤ h < 24 ∧ 0 ≤ mi < 60 ∧ 0 ≤ s < 60)
    ∧ m * 100 + d = day_rank (u / us_per_day)
    ∧ h * 3600 + mi * 60 + s = (u mod us_per_day) / us_per_second.
Proof.
  intros Hu. unfold instant. rewrite of_us_2025. cbv zeta.
  assert (0 ≤ u / us_per_day < 365) as Hd.
  { unfold us_per_day, us_per_second in *.
    split; [apply Z.div_pos; lia | apply Z.div_lt_upper_bound; lia]. }
  pose proof (day_ok_2025 _ Hd) as K. unfold day_ok in K.
  unfold day_rank.
  destruct (ord2ymd (ord2025 + u / us_per_day)) as [[y m] d].
  repeat (apply andb_prop in K as [K ?]).
  assert (y = 2025) as -> by lia.
  eexists m, d, _, _, _. split; [reflexivity|].
  unfold us_per_day, us_per_second in *.
  repeat split; try lia; Z.div_mod_to_equations; lia.
Qed.

(** No [OverflowError]: the ordinal of such an instant is a valid one. *)
Lemma add_in_range (u : Z) :
  0 ≤ u < 365 * us_per_day →
  1 ≤ (ord2025 * us_per_day + u) / us_per_day ≤ MAXORDINAL.
Proof.
  intros Hu. unfold ord2025, MAXORDINAL, us_per_day, us_per_second in *.
  Z.div_mod_to_equations. lia.
Qed.

Lemma add_instant (u td : Z) :
  0 ≤ u < 365 * us_per_day → add (instant u) td = instant (u + td).
Proof.
  intros Hu. unfold add, instant. rewrite to_of_us_2025 by done.
  f_equal. lia.
Qed.

Lemma jan1_instant : mk_datetime 2025 1 1 0 0 0 0 = instant 0.
Proof. reflexivity. Qed.

Lemma field_order_lt (m d h mi s m' d' h' mi' s' : Z) :
  0 ≤ d < 100 → 0 ≤ d' < 100 →
  0 ≤ h → 0 ≤ mi < 60 → 0 ≤ s < 60 → 0 ≤ h' → 0 ≤ mi' < 60 → 0 ≤ s' < 60 →
  h * 3600 + mi * 60 + s < 86400 → h' * 3600 + mi' * 60 + s' < 86400 →
  (m * 100 + d) * 86400 + (h * 3600 + mi * 60 + s)
  < (m' * 100 + d') * 86400 + (h' * 3600 + mi' * 60 + s') →
  field_order m m' (field_order d d' (field_order h h'
    (field_order mi mi' (field_order s s' Eq)))) = Lt.
Proof.
  intros. unfold field_order.
  destruct (Z.compare_spec m m'); [|done|lia].
  destruct (Z.compare_spec d d'); [|done|lia].
  destruct (Z.compare_spec h h'); [|done|lia].
  destruct (Z.compare_spec mi mi'); [|done|lia].
  destruct (Z.compare_spec s s'); [lia|done|lia].
Qed.

(** An instant with a later whole second has a greater text. *)
Lemma render_lt (u1 u2 : Z) :
  0 ≤ u1 → u1 / us_per_second < u2 / us_per_second →
  u2 < 365 * us_per_day →
  String.ltb (render (instant u1)) (render (instant u2)) = true.
Proof.
  intros H0 Hlt H2.
  assert (u1 < u2) as Hu.
  { unfold us_per_second in *. Z.div_mod_to_equations. lia. }
  destruct (instant_fields u1 ltac:(lia))
    as (m & d & h & mi & s & E1 & R1 & D1 & C1).
  destruct (instant_fields u2 ltac:(lia))
    as (m' & d' & h' & mi' & s' & E2 & R2 & D2 & C2).
  unfold render, String.ltb. rewrite E1, E2, !isoformat_2025.
  rewrite stamp_compare by lia.
  assert (0 ≤ (u1 mod us_per_day) / us_per_second < 86400
          ∧ 0 ≤ (u2 mod us_per_day) / us_per_second < 86400) as B by
    (unfold us_per_day, us_per_second in *; Z.div_mod_to_equations; lia).
  rewrite field_order_lt; [done | try lia ..].
  - rewrite D1, D2, C1, C2.
    assert (u1 / us_per_day ≤ u2 / us_per_day) as Hle.
    { apply Z.div_le_mono; unfold us_per_day, us_per_second; lia. }
    destruct (Z.eq_dec (u1 / us_per_day) (u2 / us_per_day)) as [Q|Q].
    + rewrite Q. apply Z.add_lt_mono_l.
      unfold us_per_day, us_per_second in *. Z.div_mod_to_equations. lia.
    + assert (day_rank (u1 / us_per_day) < day_rank (u2 / us_per_day)).
      { apply day_rank_mono; try lia.
        - apply Z.div_pos; unfold us_per_day, us_per_second; lia.
        - unfold us_per_day, us_per_second in *.
          apply Z.div_lt_upper_bound; lia. }
      nia.
Qed.

End InstantFacts.

(** ** Rounding to binary64 *)

Module FloatFacts.
Import Float.

Lemma floor_log2_range (n : Z) (d : positive) (k : Z) :
  0 ≤ k → 0 < n < 2 ^ (k + 1) * Zpos d →
  floor_log2 n d ≤ k
  ∧ (2 ^ k * Zpos d ≤ n → floor_log2 n d = k).
Proof.
  intros Hk [Hn Hlt].
  assert (0 < 2 ^ k) as Pk by (apply Z.pow_pos_nonneg; lia).
  assert (2 ^ (k + 1) = 2 * 2 ^ k) as E1
    by (rewrite Z.pow_add_r by lia; change (2 ^ 1) with 2; lia).
  assert (Z.log2 n ≤ k + 1 + Z.log2 (Zpos d)) as U.
  { rewrite <- (Z.log2_mul_pow2 (Zpos d) (k + 1)) by lia.
    apply Z.log2_le_mono. lia. }
  unfold floor_log2.
  set (t := Z.log2 n - Z.log2 (Zpos d)).
  assert (t ≤ k + 1) as Ut by (unfold t; lia).
  destruct (Z.eq_dec t (k + 1)) as [Et|Nt].
  - rewrite Et. destruct (0 <=? k + 1) eqn:Z0; [|lia].
    destruct (2 ^ (k + 1) * Zpos d <=? n) eqn:T; [lia|].
    split; [lia|]. intros _. lia.
  - split.
    + destruct (if 0 <=? t then _ else _); lia.
    + intros Hlo.
      assert (k + Z.log2 (Zpos d) ≤ Z.log2 n) as Lo.
      { rewrite <- (Z.log2_mul_pow2 (Zpos d) k) by lia.
        apply Z.log2_le_mono. lia. }
      assert (t = k) as -> by (unfold t; lia).
      destruct (0 <=? k) eqn:Z0; [|lia].
      destruct (2 ^ k * Zpos d <=? n) eqn:T; lia.
Qed.

(** A number whose magnitude lies between two multiples of the spacing
    [2^e] of its binade rounds to a multiple of [2^e] between them. *)
Lemma round64_magnitude (q : Q) (e a b : Z) :
  Qnum q ≠ 0 →
  Z.max (floor_log2 (Z.abs (Qnum q)) (Qden q) - 52) (-1074) = e → e < 0 →
  a * Zpos (Qden q) ≤ Z.abs (Qnum q) * 2 ^ (- e) ≤ b * Zpos (Qden q) →
  ∃ m, a ≤ m ≤ b
       ∧ round64 q = if Qnum q <? 0
                     then (- (m # Z.to_pos (2 ^ (- e))))%Q
                     else m # Z.to_pos (2 ^ (- e)).
Proof.
  intros Hn He Hneg Hab. unfold round64.
  destruct (Z.abs (Qnum q) =? 0) eqn:Z0; [lia|].
  rewrite He. destruct (0 <=? e) eqn:S; [lia|].
  exists (Datetime.divide_and_round (Z.abs (Qnum q) * 2 ^ (- e))
                                    (Zpos (Qden q))).
  split; [|reflexivity].
  apply divide_and_round_bounds; lia.
Qed.

(** Rounding keeps a number in [0, 2^j]. *)
Lemma round64_unit_range (q : Q) (j : Z) :
  0 ≤ j ≤ 51 → (0 <= q)%Q → (q <= inject_Z (2 ^ j))%Q →
  (0 <= round64 q)%Q ∧ (round64 q <= inject_Z (2 ^ j))%Q.
Proof.
  intros Hj H0 H1. unfold Qle in H0, H1. cbn [Qnum Qden inject_Z] in H0, H1.
  assert (0 < 2 ^ j) as Pj by (apply Z.pow_pos_nonneg; lia).
  destruct (Z.eq_dec (Qnum q) 0) as [Z0|NZ].
  - replace (round64 q) with 0%Q
      by (unfold round64; rewrite Z0; reflexivity).
    unfold Qle. cbn [Qnum Qden inject_Z]. lia.
  - assert (0 < Qnum q) as Pq by lia.
    assert (2 ^ (j + 1) = 2 * 2 ^ j) as E1
    by (rewrite Z.pow_add_r by lia; change (2 ^ 1) with 2; lia).
    destruct (floor_log2_range (Z.abs (Qnum q)) (Qden q) j ltac:(lia))
      as [Hl _]; [lia|].
    set (e := Z.max (floor_log2 (Z.abs (Qnum q)) (Qden q) - 52) (-1074)).
    assert (e < 0) as He by (unfold e; lia).
    assert (0 < 2 ^ (- e)) as Pe by (apply Z.pow_pos_nonneg; lia).
    destruct (round64_magnitude q e 0 (2 ^ j * 2 ^ (- e)) NZ eq_refl He)
      as (m & Hm & ->); [nia|].
    destruct (Qnum q <? 0) eqn:S; [lia|].
    unfold Qle. cbn [Qnum Qden inject_Z]. rewrite Z2Pos.id by lia. lia.
Qed.

(** Rounding keeps a number of the binade [2^k, 2^(k+1)) between two
    bounds that are multiples of the spacing [2^(k-52)]. *)
Lemma round64_binade (q : Q) (k a b : Z) :
  0 ≤ k ≤ 51 → 2 ^ 52 ≤ a → b < 2 ^ 53 →
  let unit := Z.to_pos (2 ^ (52 - k)) in
  (a # unit <= q)%Q → (q <= b # unit)%Q →
  (a # unit <= round64 q)%Q ∧ (round64 q <= b # unit)%Q.
Proof.
  intros Hk Ha Hb unit H0 H1.
  assert (0 < 2 ^ (52 - k)) as Pu by (apply Z.pow_pos_nonneg; lia).
  assert (0 < 2 ^ k) as Pk by (apply Z.pow_pos_nonneg; lia).
  assert (2 ^ 52 = 2 ^ k * 2 ^ (52 - k)) as E52
    by (rewrite <- Z.pow_add_r by lia; f_equal; lia).
  assert (2 ^ 53 = 2 ^ (k + 1) * 2 ^ (52 - k)) as E53
    by (rewrite <- Z.pow_add_r by lia; f_equal; lia).
  assert (0 < 2 ^ (k + 1)) as Pk1 by (apply Z.pow_pos_nonneg; lia).
  unfold Qle in H0, H1. cbn [Qnum Qden] in H0, H1. unfold unit in H0, H1.
  rewrite Z2Pos.id in H0, H1 by lia.
  set (U := 2 ^ (52 - k)) in *.
  set (d := Zpos (Qden q)) in *.
  assert (0 < d) as Pd by (unfold d; lia).
  assert (0 < Qnum q) as Pq by nia.
  assert (2 ^ k * d ≤ Qnum q) as Lo by nia.
  assert (Qnum q < 2 ^ (k + 1) * d) as Hi by nia.
  destruct (floor_log2_range (Z.abs (Qnum q)) (Qden q) k ltac:(lia))
    as [_ Hl]; [fold d; lia|].
  specialize (Hl ltac:(fold d; lia)).
  destruct (round64_magnitude q (k - 52) a b ltac:(lia) ltac:(lia)
              ltac:(lia)) as (m & Hm & ->).
  { replace (- (k - 52)) with (52 - k) by lia. fold U d. lia. }
  destruct (Qnum q <? 0) eqn:S; [lia|].
  replace (- (k - 52)) with (52 - k) by lia. fold U.
  unfold Qle, unit. cbn [Qnum Qden]. fold U. split; nia.
Qed.

Lemma round64_opp (q : Q) : round64 (- q) = (- round64 q)%Q.
Proof.
  unfold round64. cbn [Qopp Qnum Qden]. rewrite Z.abs_opp.
  destruct (Z.abs (Qnum q) =? 0) eqn:Z0; [reflexivity|].
  assert (Qnum q ≠ 0) by lia.
  destruct (Qnum q <? 0) eqn:S, (- Qnum q <? 0) eqn:S'; try lia.
  - match goal with |- ?v = (- - ?v)%Q => destruct v as [x y] end.
    unfold Qopp. cbn [Qnum Qden]. now rewrite Z.opp_involutive.
  - reflexivity.
Qed.

Lemma round64_4_6 (q : Q) :
  (4 <= q)%Q → (q <= 6)%Q → (4 <= round64 q)%Q ∧ (round64 q <= 6)%Q.
Proof.
  intros H0 H1.
  destruct (round64_binade q 2 (2 ^ 52) (3 * 2 ^ 51)) as [A B];
    [unfold Qle in *; cbn in *; lia ..|].
  split; unfold Qle in *; cbn in *; lia.
Qed.

Lemma round64_lon (q : Q) :
  (-75.5 <= q)%Q → (q <= -73.5)%Q →
  (-75.5 <= round64 q)%Q ∧ (round64 q <= -73.5)%Q.
Proof.
  intros H0 H1.
  assert (q = (- - q)%Q) as E
    by (destruct q as [n d]; unfold Qopp; cbn; now rewrite Z.opp_involutive).
  rewrite E, round64_opp.
  destruct (round64_binade (- q) 6 (147 * 2 ^ 45) (151 * 2 ^ 45)) as [A B];
    [unfold Qle in *; cbn in *; lia ..|].
  split; unfold Qle in *; cbn in *; lia.
Qed.

End FloatFacts.

(** ** Ranges of the random draws *)

Module RandomFacts.
Import Random.

Lemma random_range (g : Rng) :
  ∃ k, fst (random g) = (k # 9007199254740992)%Q ∧ 0 ≤ k < 9007199254740992.
Proof.
  unfold random, randbelow. cbn [fst].
  exists (Z.of_N (tape g (cursor g) mod 2 ^ 53)). split; [done|].
  pose proof (N.mod_upper_bound (tape g (cursor g)) (2 ^ 53) ltac:(done)) as B.
  change (2 ^ 53)%N with 9007199254740992%N in *.
  set (x := (tape g (cursor g) mod 9007199254740992)%N) in *. lia.
Qed.

Lemma random_Qrange (g : Rng) : (0 <= fst (random g) <= 1)%Q.
Proof.
  destruct (random_range g) as (k & -> & Hk).
  unfold Qle. cbn [Qnum Qden]. lia.
Qed.

Lemma choice_in {A : Type} (dflt : A) (seq : list A) (g : Rng) :
  seq ≠ [] → fst (choice dflt seq g) ∈ seq.
Proof.
  intros Hne. unfold choice, randbelow. cbn [fst].
  apply list_elem_of_In, nth_In.
  assert (length seq ≠ 0%nat) by (destruct seq; [done | cbn; lia]).
  pose proof (N.mod_upper_bound (tape g (cursor g)) (N.of_nat (length seq))
                ltac:(lia)).
  set (x := (tape g (cursor g) mod N.of_nat (length seq))%N) in *. lia.
Qed.

Lemma randint_range (a b : Z) (g : Rng) :
  a ≤ b → a ≤ fst (randint a b g) ≤ b.
Proof.
  intros Hab. unfold randint, randbelow. cbn [fst].
  pose proof (N.mod_upper_bound (tape g (cursor g)) (Z.to_N (b - a + 1))
                ltac:(lia)).
  set (x := (tape g (cursor g) mod Z.to_N (b - a + 1))%N) in *. lia.
Qed.

(** [(b - a) * random()] when [b - a] is 2: a float in [0, 2]. *)
Lemma scaled_draw_range (w r : Q) :
  (0 <= Float.round64 w)%Q → (Float.round64 w <= 2)%Q →
  (0 <= r)%Q → (r <= 1)%Q →
  (0 <= Float.round64 (Float.mul w r))%Q
  ∧ (Float.round64 (Float.mul w r) <= 2)%Q.
Proof.
  intros W0 W1 R0 R1. unfold Float.mul.
  destruct (FloatFacts.round64_unit_range r 0) as [A0 A1]; [lia|done|done|].
  change (inject_Z (2 ^ 0)) with 1%Q in A1.
  destruct (FloatFacts.round64_unit_range
              (Float.round64 w * Float.round64 r) 1) as [B0 B1];
    [lia | nra | change (inject_Z (2 ^ 1)) with 2%Q; nra |].
  apply (FloatFacts.round64_unit_range _ 1); [lia | done | done].
Qed.

Lemma uniform_lat_range (g : Rng) :
  (4 <= fst (uniform 4 6 g))%Q ∧ (fst (uniform 4 6 g) <= 6)%Q.
Proof.
  unfold uniform. pose proof (random_Qrange g) as [R0 R1].
  destruct (random g) as [r g']. cbn [fst] in *. unfold Float.add.
  destruct (scaled_draw_range (Float.sub 6 4) r) as [Y0 Y1];
    [vm_compute; discriminate | vm_compute; discriminate | done | done |].
  assert (4 <= Float.round64 4)%Q as A0 by (vm_compute; discriminate).
  assert (Float.round64 4 <= 4)%Q as A1 by (vm_compute; discriminate).
  apply FloatFacts.round64_4_6; lra.
Qed.

Lemma uniform_lon_range (g : Rng) :
  (-75.5 <= fst (uniform (-75.5) (-73.5) g))%Q
  ∧ (fst (uniform (-75.5) (-73.5) g) <= -73.5)%Q.
Proof.
  unfold uniform. pose proof (random_Qrange g) as [R0 R1].
  destruct (random g) as [r g']. cbn [fst] in *. unfold Float.add.
  destruct (scaled_draw_range (Float.sub (-73.5) (-75.5)) r) as [Y0 Y1];
    [vm_compute; discriminate | vm_compute; discriminate | done | done |].
  assert (-75.5 <= Float.round64 (-75.5))%Q as A0
    by (vm_compute; discriminate).
  assert (Float.round64 (-75.5) <= -75.5)%Q as A1
    by (vm_compute; discriminate).
  apply FloatFacts.round64_lon; lra.
Qed.

End RandomFacts.

(** [round(x, 6)] of a number between two six-decimal bounds is a
    six-decimal number between the same bounds. *)
Lemma py_round6_bounds (x : Q) (lo hi : Z) :
  (lo # 1000000 <= Float.round64 x)%Q → (Float.round64 x <= hi # 1000000)%Q →
  ∃ k, py_round x 6 = (k # 1000000)%Q ∧ lo ≤ k ≤ hi.
Proof.
  unfold Qle. cbn [Qnum Qden]. intros Hlo Hhi.
  eexists. split; [reflexivity|].
  change (10 ^ 6) with 1000000.
  apply divide_and_round_bounds; lia.
Qed.

(** ** What one pass of the simulator produces *)

(** The dictionary built at lines 286-301, from the values drawn. *)
Definition mission_record (id sensor start status : string) (lat lon : Q)
    (progress : Z) (end_time : option string) : Mission :=
  let mission : Mission :=
    <["progress" := PInt progress]>
    (<["status" := PStr status]>
    (<["gps_lon" := PFloat lon]>
    (<["gps_lat" := PFloat lat]>
    (<["start_time" := PStr start]>
    (<["timestamp" := PStr start]>
    (<["type" := PStr sensor]>
    (<["sensor_type" := PStr sensor]>
    (<["mission_id" := PStr id]> ∅)))))))) in
  match end_time with
  | Some e => <["end_time" := PStr e]> mission
  | None => mission
  end.

(** A mission as the simulator generates it: its fields and the ranges of
    the values drawn.  [u] is the start instant in microseconds since
    2025-01-01T00:00:00, [mins] the drawn duration. *)
Definition generated (id : string) (m : Mission) : Prop :=
  ∃ (sensor status : string) (u mins lat lon progress : Z),
    sensor ∈ mission_types ∧ status ∈ statuses
    ∧ 0 ≤ u ≤ 364 * Datetime.us_per_day ∧ 1 ≤ mins ≤ 180
    ∧ 4000000 ≤ lat ≤ 6000000 ∧ -75500000 ≤ lon ≤ -73500000
    ∧ 0 ≤ progress ≤ 100
    ∧ m = mission_record id sensor (render (InstantFacts.instant u)) status
            (lat # 1000000) (lon # 1000000) progress
            (if String.eqb status "completed"
             then Some (render (InstantFacts.instant
                                  (u + Datetime.timedelta_minutes mins)))
             else None).

Lemma start_offset_range (r : Q) :
  (0 <= r <= 1)%Q →
  0 ≤ Datetime.mul_float (Datetime.sub dec31 jan1) r
    ≤ 364 * Datetime.us_per_day.
Proof.
  intros [R0 R1]. unfold dec31, jan1.
  rewrite DatetimeFacts.sub_dec31_jan1. unfold Datetime.mul_float.
  unfold Qle in *. cbn [Qnum Qden] in *.
  apply divide_and_round_bounds; [lia|].
  unfold Datetime.us_per_day, Datetime.us_per_second. lia.
Qed.

Lemma simulate_iteration_spec (db : list (string * Mission))
    (g : Random.Rng) :
  ∃ m g',
    simulate_iteration db g
    = (m, dict_set (mission_key (S (length db))) m db, g')
    ∧ generated (mission_key (S (length db))) m.
Proof.
  unfold simulate_iteration.
  replace (Z.of_nat (length db) + 1) with (Z.of_nat (S (length db))) by lia.
  fold (mission_key (S (length db))).
  pose proof (RandomFacts.random_Qrange g) as Hr.
  destruct (Random.random g) as [r g1]. cbn [fst] in Hr.
  pose proof (start_offset_range r Hr) as Hu.
  set (u := Datetime.mul_float (Datetime.sub dec31 jan1) r) in *.
  pose proof (RandomFacts.choice_in "" statuses g1 ltac:(done)) as Hst.
  destruct (Random.choice "" statuses g1) as [status g2]. cbn [fst] in Hst.
  pose proof (RandomFacts.choice_in "" mission_types g2 ltac:(done)) as Hty.
  destruct (Random.choice "" mission_types g2) as [sensor g3].
  cbn [fst] in Hty.
  pose proof (RandomFacts.uniform_lat_range g3) as [Hx0 Hx1].
  destruct (Random.uniform 4 6 g3) as [x g4]. cbn [fst] in Hx0, Hx1.
  apply FloatFacts.round64_4_6 in Hx0 as [Hx0' Hx1']; [|exact Hx1].
  destruct (py_round6_bounds x 4000000 6000000) as (lat & -> & Hlat);
    [unfold Qle in *; cbn [Qnum Qden] in *; lia ..|].
  pose proof (RandomFacts.uniform_lon_range g4) as [Hy0 Hy1].
  destruct (Random.uniform (-75.5) (-73.5) g4) as [y g5].
  cbn [fst] in Hy0, Hy1.
  apply FloatFacts.round64_lon in Hy0 as [Hy0' Hy1']; [|exact Hy1].
  destruct (py_round6_bounds y (-75500000) (-73500000)) as (lon & -> & Hlon);
    [unfold Qle in *; cbn [Qnum Qden] in *; lia ..|].
  pose proof (RandomFacts.randint_range 0 100 g5 ltac:(lia)) as Hp.
  destruct (Random.randint 0 100 g5) as [progress g6]. cbn [fst] in Hp.
  pose proof (RandomFacts.randint_range 1 180 g6 ltac:(lia)) as Hm.
  unfold jan1 at 1 2. rewrite InstantFacts.jan1_instant.
  rewrite InstantFacts.add_instant
    by (unfold Datetime.us_per_day, Datetime.us_per_second; lia).
  rewrite Z.add_0_l.
  destruct (String.eqb status "completed") eqn:Ec.
  - destruct (Random.randint 1 180 g6) as [mins g7]. cbn [fst] in Hm.
    rewrite InstantFacts.add_instant
      by (unfold Datetime.us_per_day, Datetime.us_per_second in *; lia).
    eexists _, g7. split; [reflexivity|].
    exists sensor, status, u, mins, lat, lon, progress.
    rewrite Ec. repeat split; try done; lia.
  - eexists _, g6. split; [reflexivity|].
    exists sensor, status, u, 1, lat, lon, progress.
    rewrite Ec. repeat split; try done; lia.
Qed.

(** ** The loop and the invariant of [missions_db] *)

(** The entries that [n] passes append to a table of [c] missions. *)
Definition appended (c : nat) (new : list Mission)
    : list (string * Mission) :=
  combine (map mission_key (seq (S c) (length new))) new.

Lemma simulate_loop_spec (n : nat) :
  ∀ (db : list (string * Mission)) (created : list Mission) (g : Random.Rng),
    ids_in_sequence db →
    ∃ new g',
      simulate_loop n db created g
      = (db ++ appended (length db) new, created ++ new, g')
      ∧ length new = n
      ∧ ∀ i m, new !! i = Some m →
               generated (mission_key (S (length db) + i)) m.
Proof.
  induction n as [|k IH]; intros db created g Hids.
  - exists [], g. cbn. rewrite !app_nil_r.
    split; [done|]. split; [done|].
    intros i m X. destruct i; discriminate X.
  - cbn [simulate_loop].
    destruct (simulate_iteration_spec db g) as (m & g1 & -> & Hgen).
    rewrite dict_set_fresh by now apply next_key_fresh.
    destruct (IH _ (created ++ [m]) g1 (ids_in_sequence_snoc db m Hids))
      as (new & g' & -> & Hlen & Hnew).
    exists (m :: new), g'.
    rewrite length_app in *. cbn [length] in *.
    replace (length db + 1)%nat with (S (length db)) in * by lia.
    unfold appended. cbn [length seq map combine].
    rewrite <- !app_assoc. cbn [app].
    split; [done|]. split; [lia|].
    intros [|i] x X; cbn in X.
    + injection X as <-. now rewrite Nat.add_0_r.
    + replace (S (length db) + S i)%nat with (S (S (length db)) + i)%nat
        by lia.
      now apply Hnew.
Qed.

(** The invariant: sequential keys, and every stored mission is a
    generated one stored under its own identifier. *)
Definition store_ok (db : list (string * Mission)) : Prop :=
  ids_in_sequence db ∧ Forall (fun e => generated (fst e) (snd e)) db.

Lemma appended_length (c : nat) (new : list Mission) :
  length (appended c new) = length new.
Proof.
  unfold appended. rewrite length_combine, length_map, length_seq. lia.
Qed.

Lemma appended_keys (c : nat) (new : list Mission) :
  dict_keys (appended c new) = map mission_key (seq (S c) (length new)).
Proof.
  unfold appended, dict_keys.
  generalize (S c). induction new as [|m new IH]; intros a; cbn; [done|].
  now rewrite IH.
Qed.

Lemma appended_values (c : nat) (new : list Mission) :
  dict_values (appended c new) = new.
Proof.
  unfold appended, dict_values.
  generalize (S c). induction new as [|m new IH]; intros a; cbn; [done|].
  now rewrite IH.
Qed.

Lemma store_ok_appended (db : list (string * Mission)) (new : list Mission) :
  store_ok db →
  (∀ i m, new !! i = Some m → generated (mission_key (S (length db) + i)) m) →
  store_ok (db ++ appended (length db) new).
Proof.
  intros [Hids Hall] Hnew. split.
  - unfold ids_in_sequence in *.
    unfold dict_keys in *. rewrite map_app. fold (dict_keys db).
    fold (dict_keys (appended (length db) new)).
    rewrite appended_keys, length_app, appended_length.
    unfold dict_keys. rewrite Hids, seq_app, map_app. reflexivity.
  - apply Forall_app. split; [done|].
    unfold appended. revert Hnew. generalize (S (length db)).
    induction new as [|m new IH]; intros a Hnew; cbn; [constructor|].
    constructor.
    + cbn. specialize (Hnew 0%nat m eq_refl).
      now rewrite Nat.add_0_r in Hnew.
    + apply IH. intros i x X. specialize (Hnew (S i) x X).
      now replace (S a + i)%nat with (a + S i)%nat by lia.
Qed.

Section Invariant.
Context `{L : Libs}.

(** Every request extends [missions_db] at its end, by generated
    missions, and leaves the entries it had where they were. *)
Lemma handle_missions_db (req : request) (st : State) :
  ids_in_sequence (missions_db st) →
  ∃ new,
    missions_db (snd (handle req st))
    = missions_db st ++ appended (length (missions_db st)) new
    ∧ ∀ i m, new !! i = Some m →
             generated (mission_key (S (length (missions_db st)) + i)) m.
Proof.
  intros Hids.
  assert (∃ new : list Mission,
             missions_db st
             = missions_db st ++ appended (length (missions_db st)) new
             ∧ ∀ i m, new !! i = Some m →
                 generated (mission_key (S (length (missions_db st)) + i)) m)
    as Same.
  { exists []. cbn. rewrite app_nil_r. split; [done|].
    intros i m X. destruct i; discriminate X. }
  destruct req; cbn [handle].
  - unfold signup. destruct (users_db st !! UserSignup.email user);
      [exact Same|].
    destruct (hash_password (UserSignup.password user) salt); exact Same.
  - destruct (login credentials st); exact Same.
  - destruct (get_me token st); exact Same.
  - unfold upload_data. destruct (get_current_user st token); exact Same.
  - destruct (get_mission_status mission_id token st); exact Same.
  - destruct (query_data start_date sensor_type lat lon token st); exact Same.
  - unfold simulate_missions.
    destruct (get_current_user st token) as [user|e]; [|exact Same].
    cbn [mbind result_bind].
    destruct (simulate_loop_spec (Z.to_nat num) (missions_db st) [] g Hids)
      as (new & g' & -> & _ & Hnew).
    cbn [writes snd missions_db]. now exists new.
  - destruct (get_simulations token st); exact Same.
Qed.

Lemma reachable_store_ok (st : State) : reachable st → store_ok (missions_db st).
Proof.
  induction 1 as [|req st _ IH].
  - split; [reflexivity | constructor].
  - destruct (handle_missions_db req st (proj1 IH)) as (new & -> & Hnew).
    now apply store_ok_appended.
Qed.

End Invariant.

(** ** A clear-text instance of the library interface

    Used to run the handlers on concrete requests.  The hash of a password
    is the password itself, and a token is the text
    [algorithm "." subject "." key]. *)

Definition clear_decode (token key : string) (algorithms : list string)
    : option (gmap string pyval) :=
  match algorithms with
  | [alg] =>
      let pre := alg +:+ "." in
      let suf := "." +:+ key in
      let n := String.length token in
      if String.prefix pre token
         && Nat.leb (String.length pre + String.length suf) n
         && String.eqb (String.substring (n - String.length suf)
                                         (String.length suf) token) suf
      then Some {[ "sub" :=
                     PStr (String.substring (String.length pre)
                             (n - String.length pre - String.length suf)
                             token) ]}
      else None
  | _ => None
  end.

Definition clear_libs : Libs := {|
  pwd_context_hash password salt := Ok password;
  pwd_context_verify password hashed := Ok (String.eqb password hashed);
  jose_header algorithm := algorithm;
  jose_claims claims :=
    match claims !! "sub" with
    | Some (PStr s) => s
    | _ => ""
    end;
  jose_signature algorithm key signing_input := key;
  jwt_decode := clear_decode
|}.

(** A state with one registered user, and her token. *)
Definition alice : UserSignup.t := UserSignup.mk "A" "B" "a@x.com" "pw1".

Definition alice_state : State :=
  snd (handle (L := clear_libs) (ReqSignup alice "salt") initial_state).

Definition alice_token : string := "HS256.a@x.com.SUPER_SECRET_KEY_123".

Lemma alice_state_reachable : reachable (L := clear_libs) alice_state.
Proof. apply reachable_handle, reachable_initial. Qed.

Lemma alice_authenticated :
  get_current_user (L := clear_libs) alice_state alice_token
  = Ok (User.mk "A" "B" "a@x.com" "pw1").
Proof. reflexivity. Qed.

(** ** Session resolution *)

(** The user record that the subject of a decoded token designates. *)
Definition subject_user (st : State) (payload : gmap string pyval)
    : option User.t :=
  match payload !! "sub" with
  | Some (PStr email) => users_db st !! email
  | _ => None
  end.

Definition invalid_token : exn :=
  HTTPException 401 "Invalid or expired token".

Definition user_not_found : exn := HTTPException 404 "User not found".

(** C1, as stated, fails: a token that does not verify and a valid token
    whose subject is not in the user table are answered with two different
    errors (401 "Invalid or expired token" and 404 "User not found"), so
    the caller can tell a bad token from a missing user. *)
Lemma get_current_user_errors_differ :
  get_current_user (L := clear_libs) alice_state "garbage"
  = Raise (HTTPException 401 "Invalid or expired token")
  ∧ get_current_user (L := clear_libs) alice_state
      "HS256.ghost@x.com.SUPER_SECRET_KEY_123"
    = Raise (HTTPException 404 "User not found")
  ∧ get_current_user (L := clear_libs) alice_state "garbage"
    ≠ get_current_user (L := clear_libs) alice_state
        "HS256.ghost@x.com.SUPER_SECRET_KEY_123".
Proof. split; [reflexivity|]. split; [reflexivity | discriminate]. Qed.

Section Session.
Context `{L : Libs}.

Lemma get_current_user_cases (st : State) (token : string) :
  get_current_user st token =
  match decode_jwt token with
  | None => Raise invalid_token
  | Some payload =>
      match subject_user st payload with
      | Some u => Ok u
      | None => Raise user_not_found
      end
  end.
Proof.
  unfold get_current_user, subject_user.
  destruct (decode_jwt token) as [payload|]; [|done].
  now destruct (payload !! "sub") as [[email|q|z]|].
Qed.

(** C1, amended: session resolution fails in exactly two ways.  It raises
    401 "Invalid or expired token" exactly when the token does not verify,
    and 404 "User not found" exactly when the token verifies and its
    subject is not a registered email; it raises nothing else, the two
    errors are different, and in the remaining case it returns the
    subject's user record. *)
Theorem get_current_user_outcomes (st : State) (token : string) :
  (get_current_user st token = Raise invalid_token ↔ decode_jwt token = None)
  ∧ (get_current_user st token = Raise user_not_found
     ↔ ∃ payload, decode_jwt token = Some payload
                  ∧ subject_user st payload = None)
  ∧ (∀ u, get_current_user st token = Ok u
          ↔ ∃ payload, decode_jwt token = Some payload
                       ∧ subject_user st payload = Some u)
  ∧ (∀ e, get_current_user st token = Raise e
          → e = invalid_token ∨ e = user_not_found)
  ∧ invalid_token ≠ user_not_found.
Proof.
  rewrite get_current_user_cases.
  destruct (decode_jwt token) as [payload|] eqn:D.
  - destruct (subject_user st payload) as [u|] eqn:S.
    + split; [split; discriminate|].
      split; [split; [discriminate | intros (p & [= <-] & X); congruence]|].
      split; [|split; [discriminate | discriminate]].
      intros v. split.
      * intros [= <-]. now exists payload.
      * intros (p & [= <-] & X). congruence.
    + split; [split; discriminate|].
      split; [split; [now exists payload | done]|].
      split; [|split; [intros e [= <-]; now right | discriminate]].
      intros v. split; [discriminate|].
      intros (p & [= <-] & X). congruence.
  - split; [done|].
    split; [split; [discriminate | intros (p & X & _); discriminate X]|].
    split; [|split; [intros e [= <-]; now left | discriminate]].
    intros v. split; [discriminate | intros (p & X & _); discriminate X].
Qed.

End Session.

(** ** Login *)

(** C6, as stated, fails on one point: a successful login does not return
    the user record.  Two states that store different records under the
    same email and password answer the same login with the same response
    (status, token, token type), which therefore carries no user record. *)
Lemma login_response_has_no_user_record :
  let bob := UserSignup.mk "C" "D" "a@x.com" "pw1" in
  let st := snd (handle (L := clear_libs) (ReqSignup bob "salt")
                        initial_state) in
  let attempt := UserLogin.mk "a@x.com" "pw1" in
  login (L := clear_libs) attempt alice_state
  = Ok (mk_login_response "success" alice_token "Bearer")
  ∧ login (L := clear_libs) attempt st
    = Ok (mk_login_response "success" alice_token "Bearer")
  ∧ users_db alice_state !! "a@x.com" = Some (User.mk "A" "B" "a@x.com" "pw1")
  ∧ users_db st !! "a@x.com" = Some (User.mk "C" "D" "a@x.com" "pw1").
Proof. repeat split; reflexivity. Qed.

Section Login.
Context `{L : Libs}.

(** The registration a request adds to the history: a sign-up with a new
    email, whose password the library accepts, records the plaintext
    password it was made with. *)
Definition record_signup (req : request) (st : State)
    (reg : gmap string string) : gmap string string :=
  match req with
  | ReqSignup user salt =>
      match users_db st !! UserSignup.email user with
      | None =>
          match hash_password (UserSignup.password user) salt with
          | Ok _ => <[UserSignup.email user := UserSignup.password user]> reg
          | Raise _ => reg
          end
      | Some _ => reg
      end
  | _ => reg
  end.

(** [history st reg]: the server reached [st], and [reg] maps every
    registered email to the password used at its registration. *)
Inductive history : State → gmap string string → Prop :=
| history_initial : history initial_state ∅
| history_handle req st reg :
    history st reg →
    history (snd (handle req st)) (record_signup req st reg).

Lemma handle_users_db (req : request) (st : State) :
  users_db (snd (handle req st)) =
  match req with
  | ReqSignup user salt =>
      match users_db st !! UserSignup.email user with
      | None =>
          match hash_password (UserSignup.password user) salt with
          | Ok hashed =>
              <[UserSignup.email user :=
                  User.mk (UserSignup.first_name user)
                          (UserSignup.last_name user)
                          (UserSignup.email user) hashed]>
                (users_db st)
          | Raise _ => users_db st
          end
      | Some _ => users_db st
      end
  | _ => users_db st
  end.
Proof.
  destruct req; cbn [handle].
  - unfold signup. destruct (users_db st !! UserSignup.email user); [done|].
    now destruct (hash_password (UserSignup.password user) salt).
  - now destruct (login credentials st).
  - now destruct (get_me token st).
  - unfold upload_data. now destruct (get_current_user st token).
  - now destruct (get_mission_status mission_id token st).
  - now destruct (query_data start_date sensor_type lat lon token st).
  - unfold simulate_missions. destruct (get_current_user st token); [|done].
    cbn [mbind result_bind].
    now destruct (simulate_loop (Z.to_nat num) (missions_db st) [] g)
      as [[db created] g'].
  - now destruct (get_simulations token st).
Qed.

(** The stored hash of a registered email is the hash that the library
    made of the password of its registration; an unregistered email has
    no entry. *)
Lemma history_users_db (st : State) (reg : gmap string string) :
  history st reg →
  ∀ email,
    match reg !! email with
    | None => users_db st !! email = None
    | Some pw =>
        ∃ u salt, users_db st !! email = Some u
                  ∧ pwd_context_hash pw salt = Ok (User.password u)
    end.
Proof.
  induction 1 as [|req st reg _ IH]; intros email.
  - now rewrite lookup_empty.
  - rewrite handle_users_db.
    destruct req; cbn [record_signup]; try apply IH.
    destruct (users_db st !! UserSignup.email user) eqn:U; [apply IH|].
    unfold hash_password.
    destruct (pwd_context_hash (UserSignup.password user) salt) as [h|e]
      eqn:H; [|apply IH].
    destruct (decide (UserSignup.email user = email)) as [<-|N].
    + rewrite !lookup_insert_eq. eexists _, salt. split; [reflexivity|].
      exact H.
    + rewrite !lookup_insert_ne by done. apply IH.
Qed.

Lemma create_jwt_nonempty (data : gmap string pyval) : create_jwt data ≠ "".
Proof.
  unfold create_jwt, jwt_encode. intros E.
  apply (f_equal String.length) in E.
  rewrite !length_append in E. cbn in E. lia.
Qed.

(** C6, amended: a login for an email that was never registered fails with
    404 "User not found".  For a registered email the supplied password is
    verified by the password library against the hash it made of the
    password used at registration: when the verification answers false the
    login fails with 401 "Incorrect password"; when it answers true the
    login succeeds with the response (status "success", a non-empty token
    issued for that email, token type "Bearer"), which carries no user
    record; when the verification itself raises, that exception is the
    outcome.  Which passwords verify is the library's matter alone. *)
Theorem login_outcomes (st : State) (reg : gmap string string)
    (credentials : UserLogin.t) :
  history st reg →
  match reg !! UserLogin.email credentials with
  | None => login credentials st = Raise (HTTPException 404 "User not found")
  | Some pw =>
      ∃ salt hashed token,
        pwd_context_hash pw salt = Ok hashed
        ∧ token = create_jwt {[ "sub" := PStr (UserLogin.email credentials) ]}
        ∧ token ≠ ""
        ∧ login credentials st =
          match pwd_context_verify (UserLogin.password credentials) hashed
          with
          | Ok true => Ok (mk_login_response "success" token "Bearer")
          | Ok false => Raise (HTTPException 401 "Incorrect password")
          | Raise e => Raise e
          end
  end.
Proof.
  intros Hist.
  pose proof (history_users_db st reg Hist (UserLogin.email credentials)) as K.
  unfold login.
  destruct (reg !! UserLogin.email credentials) as [pw|].
  - destruct K as (u & salt & -> & H). unfold verify_password.
    eexists salt, (User.password u), _.
    split; [exact H|]. split; [reflexivity|].
    split; [apply create_jwt_nonempty|].
    now destruct (pwd_context_verify (UserLogin.password credentials)
                    (User.password u)) as [[|]|e].
  - now rewrite K.
Qed.

End Login.

Lemma login_outcomes_witness :
  ∃ salt hashed token,
    @pwd_context_hash clear_libs "pw1" salt = Ok hashed
    ∧ token = create_jwt (L := clear_libs) {[ "sub" := PStr "a@x.com" ]}
    ∧ token ≠ ""
    ∧ login (L := clear_libs) (UserLogin.mk "a@x.com" "pw1") alice_state =
      match @pwd_context_verify clear_libs "pw1" hashed with
      | Ok true => Ok (mk_login_response "success" token "Bearer")
      | Ok false => Raise (HTTPException 401 "Incorrect password")
      | Raise e => Raise e
      end.
Proof.
  exact (login_outcomes (L := clear_libs) alice_state
           (record_signup (ReqSignup alice "salt") initial_state ∅)
           (UserLogin.mk "a@x.com" "pw1")
           (history_handle (ReqSignup alice "salt") initial_state ∅
              history_initial)).
Defined.

(** ** Fields of a generated mission *)

Section RecordFields.
Context (id sensor start status : string) (lat lon : Q) (progress : Z)
        (end_time : option string).

Let m := mission_record id sensor start status lat lon progress end_time.

Lemma record_mission_id : m !! "mission_id" = Some (PStr id).
Proof. unfold m, mission_record. now destruct end_time. Qed.

Lemma record_sensor_type : m !! "sensor_type" = Some (PStr sensor).
Proof. unfold m, mission_record. now destruct end_time. Qed.

Lemma record_type : m !! "type" = Some (PStr sensor).
Proof. unfold m, mission_record. now destruct end_time. Qed.

Lemma record_timestamp : m !! "timestamp" = Some (PStr start).
Proof. unfold m, mission_record. now destruct end_time. Qed.

Lemma record_start_time : m !! "start_time" = Some (PStr start).
Proof. unfold m, mission_record. now destruct end_time. Qed.

Lemma record_gps_lat : m !! "gps_lat" = Some (PFloat lat).
Proof. unfold m, mission_record. now destruct end_time. Qed.

Lemma record_gps_lon : m !! "gps_lon" = Some (PFloat lon).
Proof. unfold m, mission_record. now destruct end_time. Qed.

Lemma record_status : m !! "status" = Some (PStr status).
Proof. unfold m, mission_record. now destruct end_time. Qed.

Lemma record_progress : m !! "progress" = Some (PInt progress).
Proof. unfold m, mission_record. now destruct end_time. Qed.

Lemma record_end_time : m !! "end_time" = PStr <$> end_time.
Proof. unfold m, mission_record. now destruct end_time. Qed.

End RecordFields.

(** ** The simulator *)

Lemma simulate_loop_created (n : nat) :
  ∀ (db : list (string * Mission)) (created : list Mission) (g : Random.Rng),
    ∃ new,
      snd (fst (simulate_loop n db created g)) = created ++ new
      ∧ length new = n
      ∧ Forall (fun m => ∃ id, generated id m) new.
Proof.
  induction n as [|k IH]; intros db created g.
  - exists []. cbn. now rewrite app_nil_r.
  - cbn [simulate_loop].
    destruct (simulate_iteration_spec db g) as (m & g1 & -> & Hgen).
    destruct (IH (dict_set (mission_key (S (length db))) m db)
                 (created ++ [m]) g1) as (new & -> & Hlen & Hall).
    exists (m :: new). rewrite <- app_assoc. cbn.
    split; [done|]. split; [lia|]. constructor; [|done].
    now exists (mission_key (S (length db))).
Qed.

Section Simulator.
Context `{L : Libs}.

(** The run that [simulate_missions] records for the missions [new]. *)
Definition run_of (st : State) (num : Z) (now : Datetime.datetime)
    (new : list Mission) : SimulationRun.t :=
  SimulationRun.mk (Z.of_nat (length (simulations_db st)) + 1) num
                   (Datetime.isoformat now +:+ "Z") new.

(** For an authenticated caller the simulator returns, and every mission
    of the run is a generated one. *)
Lemma simulate_missions_returns (st : State) (num : Z) (token : string)
    (g : Random.Rng) (now : Datetime.datetime) (user : User.t) :
  get_current_user st token = Ok user →
  ∃ new db,
    simulate_missions num token g now st
    = Ok (run_of st num now new,
          mk_state db (data_db st)
                   (simulations_db st ++ [run_of st num now new])
                   (users_db st))
    ∧ length new = Z.to_nat num
    ∧ Forall (fun m => ∃ id, generated id m) new.
Proof.
  intros Auth. unfold simulate_missions. rewrite Auth.
  cbn [mbind result_bind].
  destruct (simulate_loop_created (Z.to_nat num) (missions_db st) [] g)
    as (new & E & Hlen & Hall).
  destruct (simulate_loop (Z.to_nat num) (missions_db st) [] g)
    as [[db created] g'].
  cbn in E. subst created. now exists new, db.
Qed.

(** On a table with sequential keys, the table after the call. *)
Lemma simulate_missions_appends (st : State) (num : Z) (token : string)
    (g : Random.Rng) (now : Datetime.datetime) (user : User.t) :
  ids_in_sequence (missions_db st) →
  get_current_user st token = Ok user →
  ∃ new,
    simulate_missions num token g now st
    = Ok (run_of st num now new,
          mk_state (missions_db st ++ appended (length (missions_db st)) new)
                   (data_db st)
                   (simulations_db st ++ [run_of st num now new])
                   (users_db st))
    ∧ length new = Z.to_nat num
    ∧ ∀ i m, new !! i = Some m →
             generated (mission_key (S (length (missions_db st)) + i)) m.
Proof.
  intros Hids Auth. unfold simulate_missions. rewrite Auth.
  cbn [mbind result_bind].
  destruct (simulate_loop_spec (Z.to_nat num) (missions_db st) [] g Hids)
    as (new & g' & -> & Hlen & Hnew).
  now exists new.
Qed.

End Simulator.

(** Example inputs for the simulator: a tape of draws, and a clock. *)
Definition example_rng : Random.Rng :=
  Random.mk_rng (fun n => (N.of_nat (S n) * 3000000000000037)%N) 0.

Definition example_now : Datetime.datetime :=
  Datetime.mk_datetime 2026 1 2 3 4 5 6.

(** *** Identifier allocation *)

Lemma map_seq_shift {A : Type} (f : nat → A) (c n : nat) :
  ∀ s, map f (seq (c + s) n) = map (fun i => f (c + i)%nat) (seq s n).
Proof.
  induction n as [|n IH]; intros s; cbn [seq map]; [done|].
  f_equal. rewrite <- IH. now rewrite Nat.add_succ_r.
Qed.

Section Allocation.
Context `{L : Libs}.

(** C2: on a reachable state holding [c] missions, an authenticated call
    [simulate(num)] returns, the missions it creates carry the identifiers
    [M<1000+c+1>], ..., [M<1000+c+n>] in that order ([n = max num 0]) and
    are appended under those keys to the table; the keys of the table are
    pairwise distinct (no identifier is reused) and their numbers
    increase strictly in order of creation. *)
Theorem simulate_ids_sequential (st : State) (num : Z) (token : string)
    (g : Random.Rng) (now : Datetime.datetime) (user : User.t) :
  reachable st → get_current_user st token = Ok user →
  let c := Z.of_nat (length (missions_db st)) in
  let ids :=
    map (fun i => "M" +:+ str_int (1000 + c + Z.of_nat i))
        (seq 1 (Z.to_nat num)) in
  ∃ run st',
    simulate_missions num token g now st = Ok (run, st')
    ∧ map (fun m : Mission => m !! "mission_id") (SimulationRun.missions run)
      = map (fun id => Some (PStr id)) ids
    ∧ dict_keys (missions_db st') = dict_keys (missions_db st) ++ ids
    ∧ dict_values (missions_db st')
      = dict_values (missions_db st) ++ SimulationRun.missions run
    ∧ NoDup (dict_keys (missions_db st'))
    ∧ ∀ i j ki kj,
        (i < j)%nat →
        dict_keys (missions_db st') !! i = Some ki →
        dict_keys (missions_db st') !! j = Some kj →
        ∃ a b, ki = "M" +:+ str_int a ∧ kj = "M" +:+ str_int b ∧ a < b.
Proof.
  intros Hreach Auth c ids.
  destruct (reachable_store_ok st Hreach) as [Hids Hall].
  destruct (simulate_missions_appends st num token g now user Hids Auth)
    as (new & -> & Hlen & Hnew).
  eexists _, _. split; [reflexivity|].
  cbn [SimulationRun.missions run_of missions_db].
  assert (map mission_key (seq (S (length (missions_db st))) (length new))
          = ids) as Hk.
  { unfold ids. rewrite Hlen.
    replace (S (length (missions_db st)))
      with (length (missions_db st) + 1)%nat by lia.
    rewrite map_seq_shift. apply map_ext. intros i.
    unfold mission_key, c. do 2 f_equal. lia. }
  assert (store_ok (missions_db st
                    ++ appended (length (missions_db st)) new)) as [Hids' _]
    by now apply store_ok_appended.
  split; [|split; [|split; [|split]]].
  - rewrite <- Hk. clear Hk Hids' Hlen. unfold ids. clear ids.
    revert Hnew. generalize (S (length (missions_db st))).
    induction new as [|m new IH]; intros a Hnew; [done|].
    cbn [length seq map]. f_equal.
    + destruct (Hnew 0%nat m eq_refl)
        as (s1 & s2 & u & mins & lat & lon & p & _ & _ & _ & _ & _ & _ & _ & ->).
      rewrite record_mission_id, Nat.add_0_r. reflexivity.
    + apply IH. intros i x X. specialize (Hnew (S i) x X).
      now replace (S a + i)%nat with (a + S i)%nat by lia.
  - unfold dict_keys at 1. rewrite map_app.
    fold (dict_keys (appended (length (missions_db st)) new)).
    now rewrite appended_keys, Hk.
  - now rewrite dict_values_app, appended_values.
  - rewrite Hids'. apply NoDup_fmap_2; [|apply NoDup_seq].
    intros i j. apply mission_key_inj.
  - rewrite Hids'. intros i j ki kj Hij Hi Hj.
    apply list_lookup_fmap_Some in Hi as (a & -> & Ha).
    apply list_lookup_fmap_Some in Hj as (b & -> & Hb).
    apply lookup_seq in Ha as [-> _]. apply lookup_seq in Hb as [-> _].
    eexists _, _. split; [reflexivity|]. split; [reflexivity|]. lia.
Qed.

End Allocation.

Lemma simulate_ids_sequential_witness :
  ∃ run st',
    simulate_missions (L := clear_libs) 2 alice_token example_rng example_now
                      alice_state = Ok (run, st')
    ∧ map (fun m : Mission => m !! "mission_id") (SimulationRun.missions run)
      = [Some (PStr "M1001"); Some (PStr "M1002")]
    ∧ dict_keys (missions_db st') = ["M1001"; "M1002"]
    ∧ dict_values (missions_db st') = [] ++ SimulationRun.missions run
    ∧ NoDup (dict_keys (missions_db st'))
    ∧ ∀ i j ki kj,
        (i < j)%nat →
        dict_keys (missions_db st') !! i = Some ki →
        dict_keys (missions_db st') !! j = Some kj →
        ∃ a b, ki = "M" +:+ str_int a ∧ kj = "M" +:+ str_int b ∧ a < b.
Proof.
  exact (simulate_ids_sequential (L := clear_libs) alice_state 2 alice_token
           example_rng example_now _ alice_state_reachable
           alice_authenticated).
Defined.

(** *** End time, field ranges, duplicated fields *)

(** [end_time] is present exactly for a completed mission, and is then
    a text greater than [start_time] in the order that compares
    timestamps. *)
Definition end_time_consistent (m : Mission) : Prop :=
  (is_Some (m !! "end_time") ↔ m !! "status" = Some (PStr "completed"))
  ∧ ∀ e, m !! "end_time" = Some e →
         ∃ s t, m !! "start_time" = Some (PStr s) ∧ e = PStr t
                ∧ String.ltb s t = true.

Lemma generated_end_time_consistent (id : string) (m : Mission) :
  generated id m → end_time_consistent m.
Proof.
  intros (sensor & status & u & mins & lat & lon & p
          & _ & _ & Hu & Hm & _ & _ & _ & ->).
  unfold end_time_consistent.
  rewrite record_end_time, record_status, record_start_time.
  destruct (String.eqb_spec status "completed") as [->|N]; cbn [fmap option_fmap option_map].
  - split; [split; [done | intros _; eexists; reflexivity]|].
    intros e [= <-]. eexists _, _. split; [reflexivity|].
    split; [reflexivity|].
    apply InstantFacts.render_lt; [lia | |].
    + unfold Datetime.timedelta_minutes, Datetime.us_per_second.
      rewrite Z.div_add by lia. lia.
    + unfold Datetime.timedelta_minutes, Datetime.us_per_day,
        Datetime.us_per_second in *. lia.
  - split; [|intros e X; discriminate X].
    split; [intros [x X]; discriminate X | intros [= X]; congruence].
Qed.

(** The ranges of the fields of a simulated mission. *)
Definition fields_in_range (m : Mission) : Prop :=
  (∃ dt, m !! "start_time" = Some (PStr (Datetime.isoformat dt +:+ "Z"))
         ∧ Datetime.year dt = 2025
         ∧ 1 ≤ Datetime.month dt ≤ 12 ∧ 1 ≤ Datetime.day dt ≤ 31
         ∧ 0 ≤ Datetime.hour dt < 24 ∧ 0 ≤ Datetime.minute dt < 60
         ∧ 0 ≤ Datetime.second dt < 60 ∧ Datetime.microsecond dt = 0
         ∧ String.length (Datetime.isoformat dt +:+ "Z") = 20%nat
         ∧ String.prefix "2025-" (Datetime.isoformat dt +:+ "Z") = true)
  ∧ (∃ s, m !! "status" = Some (PStr s)
          ∧ s ∈ ["pending"; "processing"; "completed"])
  ∧ (∃ s, m !! "sensor_type" = Some (PStr s)
          ∧ s ∈ ["thermal"; "multispectral"; "lidar"])
  ∧ (∃ k, m !! "gps_lat" = Some (PFloat (k # 1000000))
          ∧ (4.0 <= k # 1000000 <= 6.0)%Q)
  ∧ (∃ k, m !! "gps_lon" = Some (PFloat (k # 1000000))
          ∧ (-75.5 <= k # 1000000 <= -73.5)%Q)
  ∧ (∃ p, m !! "progress" = Some (PInt p) ∧ 0 ≤ p ≤ 100).

Lemma generated_fields_in_range (id : string) (m : Mission) :
  generated id m → fields_in_range m.
Proof.
  intros (sensor & status & u & mins & lat & lon & p
          & Hty & Hst & Hu & _ & Hlat & Hlon & Hp & ->).
  unfold fields_in_range.
  rewrite record_start_time, record_status, record_sensor_type,
    record_gps_lat, record_gps_lon, record_progress.
  split; [|split; [|split; [|split; [|split]]]].
  - destruct (InstantFacts.instant_fields u) as (mo & d & h & mi & s & E & R & _).
    { unfold Datetime.us_per_day, Datetime.us_per_second in *. lia. }
    exists (Datetime.replace_microsecond0 (InstantFacts.instant u)).
    split; [reflexivity|]. rewrite E.
    rewrite RenderFacts.isoformat_2025.
    cbn [Datetime.replace_microsecond0 Datetime.year Datetime.month
         Datetime.day Datetime.hour Datetime.minute Datetime.second
         Datetime.microsecond].
    rewrite RenderFacts.stamp_length by lia.
    repeat split; try lia. apply prefix_append.
  - now exists status.
  - now exists sensor.
  - exists lat. split; [reflexivity|]. unfold Qle. cbn [Qnum Qden]. lia.
  - exists lon. split; [reflexivity|]. unfold Qle. cbn [Qnum Qden]. lia.
  - now exists p.
Qed.

(** Both spellings of the sensor and of the start time are present and
    equal. *)
Definition duplicated_fields (m : Mission) : Prop :=
  ∃ sensor start,
    m !! "sensor_type" = Some (PStr sensor) ∧ m !! "type" = Some (PStr sensor)
    ∧ m !! "timestamp" = Some (PStr start)
    ∧ m !! "start_time" = Some (PStr start).

Lemma generated_duplicated_fields (id : string) (m : Mission) :
  generated id m → duplicated_fields m.
Proof.
  intros (sensor & status & u & mins & lat & lon & p & _ & _ & _ & _ & _ & _ & _ & ->).
  eexists _, _.
  rewrite record_sensor_type, record_type, record_timestamp,
    record_start_time.
  repeat split.
Qed.

Section SimulatedMissions.
Context `{L : Libs}.

(** C3: an authenticated call to the simulator returns, and every mission
    of the run has an [end_time] field if and only if its status is
    "completed"; when present, the end time is strictly after the start
    time (as texts in the lexicographic order, which for these
    fixed-width renderings is the order of the instants). *)
Theorem simulate_end_time_iff_completed (st : State) (num : Z)
    (token : string) (g : Random.Rng) (now : Datetime.datetime)
    (user : User.t) :
  get_current_user st token = Ok user →
  ∃ run st',
    simulate_missions num token g now st = Ok (run, st')
    ∧ length (SimulationRun.missions run) = Z.to_nat num
    ∧ Forall end_time_consistent (SimulationRun.missions run).
Proof.
  intros Auth.
  destruct (simulate_missions_returns st num token g now user Auth)
    as (new & db & -> & Hlen & Hall).
  eexists _, _. split; [reflexivity|]. split; [exact Hlen|].
  cbn [SimulationRun.missions run_of].
  eapply Forall_impl; [exact Hall|].
  intros m [id Hgen]. now apply (generated_end_time_consistent id).
Qed.

(** C7: an authenticated call to the simulator returns, and for every
    mission of the run, whatever the random draws: the start time is the
    ISO-8601 text, ending in "Z", of an instant of the year 2025 with no
    fraction of a second; the status is one of pending, processing,
    completed; the sensor type is one of thermal, multispectral, lidar;
    the latitude is a six-decimal number in [4.0, 6.0] and the longitude
    one in [-75.5, -73.5]; the progress is an integer in [0, 100]. *)
Theorem simulate_fields_in_range (st : State) (num : Z) (token : string)
    (g : Random.Rng) (now : Datetime.datetime) (user : User.t) :
  get_current_user st token = Ok user →
  ∃ run st',
    simulate_missions num token g now st = Ok (run, st')
    ∧ length (SimulationRun.missions run) = Z.to_nat num
    ∧ Forall fields_in_range (SimulationRun.missions run).
Proof.
  intros Auth.
  destruct (simulate_missions_returns st num token g now user Auth)
    as (new & db & -> & Hlen & Hall).
  eexists _, _. split; [reflexivity|]. split; [exact Hlen|].
  cbn [SimulationRun.missions run_of].
  eapply Forall_impl; [exact Hall|].
  intros m [id Hgen]. now apply (generated_fields_in_range id).
Qed.

(** C9: an authenticated call to the simulator returns, and every mission
    of the run has the fields "sensor_type" and "type" with one and the
    same value, and the fields "timestamp" and "start_time" with one and
    the same value. *)
Theorem simulate_duplicated_fields (st : State) (num : Z) (token : string)
    (g : Random.Rng) (now : Datetime.datetime) (user : User.t) :
  get_current_user st token = Ok user →
  ∃ run st',
    simulate_missions num token g now st = Ok (run, st')
    ∧ length (SimulationRun.missions run) = Z.to_nat num
    ∧ Forall duplicated_fields (SimulationRun.missions run).
Proof.
  intros Auth.
  destruct (simulate_missions_returns st num token g now user Auth)
    as (new & db & -> & Hlen & Hall).
  eexists _, _. split; [reflexivity|]. split; [exact Hlen|].
  cbn [SimulationRun.missions run_of].
  eapply Forall_impl; [exact Hall|].
  intros m [id Hgen]. now apply (generated_duplicated_fields id).
Qed.

(** C10: for a count [num ≤ 0] an authenticated call to the simulator
    succeeds; it creates no mission and leaves [missions_db] (and the user
    and upload tables) as they were, and appends to [simulations_db] the
    run it returns, whose [missions_generated] is [num] itself, whose
    [missions] is empty and whose [simulation_id] is the previous number
    of runs plus one. *)
Theorem simulate_nonpositive_count (st : State) (num : Z) (token : string)
    (g : Random.Rng) (now : Datetime.datetime) (user : User.t) :
  num ≤ 0 → get_current_user st token = Ok user →
  let run :=
    SimulationRun.mk (Z.of_nat (length (simulations_db st)) + 1) num
                     (Datetime.isoformat now +:+ "Z") [] in
  simulate_missions num token g now st
  = Ok (run, mk_state (missions_db st) (data_db st)
                      (simulations_db st ++ [run]) (users_db st)).
Proof.
  intros Hnum Auth. unfold simulate_missions. rewrite Auth.
  replace (Z.to_nat num) with 0%nat by lia. reflexivity.
Qed.

End SimulatedMissions.

Lemma simulate_end_time_iff_completed_witness :
  ∃ run st',
    simulate_missions (L := clear_libs) 3 alice_token example_rng example_now
                      alice_state = Ok (run, st')
    ∧ length (SimulationRun.missions run) = 3%nat
    ∧ Forall end_time_consistent (SimulationRun.missions run).
Proof.
  exact (simulate_end_time_iff_completed (L := clear_libs) alice_state 3
           alice_token example_rng example_now _ alice_authenticated).
Defined.

Lemma simulate_fields_in_range_witness :
  ∃ run st',
    simulate_missions (L := clear_libs) 3 alice_token example_rng example_now
                      alice_state = Ok (run, st')
    ∧ length (SimulationRun.missions run) = 3%nat
    ∧ Forall fields_in_range (SimulationRun.missions run).
Proof.
  exact (simulate_fields_in_range (L := clear_libs) alice_state 3
           alice_token example_rng example_now _ alice_authenticated).
Defined.

Lemma simulate_duplicated_fields_witness :
  ∃ run st',
    simulate_missions (L := clear_libs) 3 alice_token example_rng example_now
                      alice_state = Ok (run, st')
    ∧ length (SimulationRun.missions run) = 3%nat
    ∧ Forall duplicated_fields (SimulationRun.missions run).
Proof.
  exact (simulate_duplicated_fields (L := clear_libs) alice_state 3
           alice_token example_rng example_now _ alice_authenticated).
Defined.

Lemma simulate_nonpositive_count_witness :
  simulate_missions (L := clear_libs) (-5) alice_token example_rng
                    example_now alice_state
  = Ok (SimulationRun.mk 1 (-5) "2026-01-02T03:04:05.000006Z" [],
        mk_state [] [] [SimulationRun.mk 1 (-5) "2026-01-02T03:04:05.000006Z" []]
                 (users_db alice_state)).
Proof.
  exact (simulate_nonpositive_count (L := clear_libs) alice_state (-5)
           alice_token example_rng example_now _ ltac:(lia)
           alice_authenticated).
Defined.

(** ** Stored missions are never mutated *)

Section Immutability.
Context `{L : Libs}.

(** The state after a sequence of requests. *)
Definition run_requests (reqs : list request) (st : State) : State :=
  fold_left (fun s req => snd (handle req s)) reqs st.

Lemma run_requests_reachable (reqs : list request) (st : State) :
  reachable st → reachable (run_requests reqs st).
Proof.
  revert st. induction reqs as [|req reqs IH]; intros st R; [done|].
  apply IH. now apply reachable_handle.
Qed.

(** C8: from a reachable state, whatever public operations follow
    (sign-up, login, me, upload, status lookup, query, simulate,
    simulations listing), every mission stored under an identifier is still
    stored under it, unchanged in all its fields; the table only grows at
    its end. *)
Theorem stored_missions_never_mutated (st : State) (reqs : list request) :
  reachable st →
  ∃ new,
    missions_db (run_requests reqs st) = missions_db st ++ new
    ∧ ∀ id m, dict_get id (missions_db st) = Some m →
              dict_get id (missions_db (run_requests reqs st)) = Some m.
Proof.
  revert st. induction reqs as [|req reqs IH]; intros st R.
  - exists []. cbn. now rewrite app_nil_r.
  - destruct (handle_missions_db req st (proj1 (reachable_store_ok st R)))
      as (new1 & E1 & _).
    destruct (IH _ (reachable_handle req st R)) as (new2 & E2 & _).
    cbn [run_requests fold_left]. fold (run_requests reqs (handle req st).2).
    exists (appended (length (missions_db st)) new1 ++ new2).
    assert (missions_db (run_requests reqs (handle req st).2)
            = missions_db st
              ++ appended (length (missions_db st)) new1 ++ new2) as E
      by now rewrite E2, E1, <- app_assoc.
    split; [exact E|].
    intros id m G. rewrite E. now apply dict_get_app_Some.
Qed.

End Immutability.

(** A state with three simulated missions. *)
Definition fleet_state : State :=
  snd (handle (L := clear_libs)
              (ReqSimulate 3 alice_token example_rng example_now)
              alice_state).

Lemma fleet_state_reachable : reachable (L := clear_libs) fleet_state.
Proof. apply reachable_handle, alice_state_reachable. Qed.

Lemma stored_missions_never_mutated_witness :
  ∃ new,
    missions_db
      (run_requests (L := clear_libs)
         [ReqSimulate 2 alice_token example_rng example_now;
          ReqQuery None (Some "lidar") None None alice_token;
          ReqMissionStatus "M1001" alice_token]
         fleet_state)
    = missions_db fleet_state ++ new
    ∧ ∀ id m, dict_get id (missions_db fleet_state) = Some m →
              dict_get id
                (missions_db
                   (run_requests (L := clear_libs)
                      [ReqSimulate 2 alice_token example_rng example_now;
                       ReqQuery None (Some "lidar") None None alice_token;
                       ReqMissionStatus "M1001" alice_token]
                      fleet_state)) = Some m.
Proof.
  exact (stored_missions_never_mutated (L := clear_libs) fleet_state _
           fleet_state_reachable).
Defined.

(** ** The query engine *)

(** The four predicates, as the specification words them, the two
    distances being computed in float arithmetic ([near]: the rounded
    difference against the float 0.001); [None] is an option that imposes
    no constraint. *)
Definition selects (start_date sensor_type : option string)
    (lat lon : option pyfloat) (m : Mission) : bool :=
  match start_date with
  | Some sd =>
      match m !! "timestamp" with
      | Some (PStr t) => str_ge t sd
      | _ => false
      end
  | None => true
  end
  && match sensor_type with
     | Some ty =>
         match m !! "sensor_type" with
         | Some (PStr s) => String.eqb s ty
         | _ => false
         end
     | None => true
     end
  && match lat with
     | Some x =>
         match m !! "gps_lat" with
         | Some (PFloat q) => near (Finite q) x
         | _ => false
         end
     | None => true
     end
  && match lon with
     | Some x =>
         match m !! "gps_lon" with
         | Some (PFloat q) => near (Finite q) x
         | _ => false
         end
     | None => true
     end.

(** The missions a query selects when every supplied option constrains,
    as C4 is stated. *)
Definition selected_as_stated (f : Filters) (missions : list Mission)
    : list Mission :=
  List.filter (selects (f_start_date f) (f_sensor_type f) (f_lat f) (f_lon f))
              missions.

(** The missions a query selects when a [start_date] or [sensor_type] that
    is the empty string counts as absent. *)
Definition selected (f : Filters) (missions : list Mission) : list Mission :=
  List.filter (selects (given (f_start_date f)) (given (f_sensor_type f))
                       (f_lat f) (f_lon f))
              missions.

Definition found (r : result QueryResponse) : option Z :=
  match r with
  | Ok resp => Some (total_found resp)
  | Raise _ => None
  end.

(** C4, as stated, fails: a query whose [sensor_type] option is the empty
    string returns all three stored missions, none of which has the
    sensor type "" that the exact-equality predicate would require. *)
Lemma query_empty_sensor_type_returns_all :
  found (query_data (L := clear_libs) None (Some "") None None alice_token
                    fleet_state) = Some 3
  ∧ length (selected_as_stated (mk_filters None (Some "") None None)
              (dict_values (missions_db fleet_state))) = 0%nat
  ∧ length (dict_values (missions_db fleet_state)) = 3%nat.
Proof. repeat split; vm_compute; reflexivity. Qed.

(** The fields the predicates read have the types the simulator gives
    them. *)
Definition typed (m : Mission) : Prop :=
  ∃ t s la lo,
    m !! "timestamp" = Some (PStr t) ∧ m !! "sensor_type" = Some (PStr s)
    ∧ m !! "gps_lat" = Some (PFloat la) ∧ m !! "gps_lon" = Some (PFloat lo).

Lemma generated_typed (id : string) (m : Mission) : generated id m → typed m.
Proof.
  intros (sensor & status & u & mins & lat & lon & p & _ & _ & _ & _ & _ & _ & _ & ->).
  eexists _, _, _, _.
  rewrite record_timestamp, record_sensor_type, record_gps_lat,
    record_gps_lon.
  repeat split.
Qed.

Lemma store_ok_typed (db : list (string * Mission)) :
  store_ok db → Forall typed (dict_values db).
Proof.
  intros [_ Hall]. unfold dict_values. apply Forall_fmap.
  eapply Forall_impl; [exact Hall|].
  intros [k m] G. now apply (generated_typed k).
Qed.

Lemma leb_nonempty_empty (s : string) : s ≠ "" → String.leb s "" = false.
Proof. intros N. destruct s; [done | reflexivity]. Qed.

Lemma given_Some (o : option string) (s : string) :
  given o = Some s → s ≠ "".
Proof.
  unfold given. destruct o as [x|]; [|done].
  destruct (String.eqb_spec x ""); [done|]. now intros [= <-].
Qed.

Section Comprehension.
Context `{L : Libs}.

Lemma comprehension_filter {A : Type} (cond : A → result bool) (p : A → bool)
    (l : list A) :
  Forall (fun r => cond r = Ok (p r)) l →
  comprehension cond l = Ok (List.filter p l).
Proof.
  induction 1 as [|r l E _ IH]; [done|].
  cbn [comprehension List.filter]. rewrite E, IH. reflexivity.
Qed.

Lemma date_cond_typed (sd : string) (m : Mission) :
  sd ≠ "" → typed m →
  date_cond sd m = Ok (selects (Some sd) None None None m).
Proof.
  intros Hsd (t & s & la & lo & Ht & _). unfold date_cond, selects.
  rewrite Ht. cbn [truthy andb]. rewrite !andb_true_r.
  destruct (String.eqb_spec t "") as [->|N]; cbn [negb]; [|done].
  unfold str_ge. now rewrite leb_nonempty_empty.
Qed.

Lemma sensor_cond_typed (ty : string) (m : Mission) :
  sensor_cond ty m = Ok (selects None (Some ty) None None m).
Proof.
  unfold sensor_cond, selects. cbn [andb]. now rewrite !andb_true_r.
Qed.

Lemma lat_cond_typed (x : pyfloat) (m : Mission) :
  typed m → near_cond "gps_lat" x m = Ok (selects None None (Some x) None m).
Proof.
  intros (t & s & la & lo & _ & _ & Hla & _). unfold near_cond, selects.
  rewrite Hla. cbn. now rewrite andb_true_r.
Qed.

Lemma lon_cond_typed (x : pyfloat) (m : Mission) :
  typed m → near_cond "gps_lon" x m = Ok (selects None None None (Some x) m).
Proof.
  intros (t & s & la & lo & _ & _ & _ & Hlo). unfold near_cond, selects.
  now rewrite Hlo.
Qed.

End Comprehension.

(** The four filtering steps of [query_data], to be applied in any
    order. *)
Inductive stage : Type := ByStartDate | BySensorType | ByLat | ByLon.

Section Stages.
Context `{L : Libs}.

(** One step: lines 203-207, 212-216, 221-226, 231-236. *)
Definition apply_stage (f : Filters) (s : stage) (results : list Mission)
    : result (list Mission) :=
  match s with
  | ByStartDate =>
      match given (f_start_date f) with
      | Some sd => comprehension (date_cond sd) results
      | None => Ok results
      end
  | BySensorType =>
      match given (f_sensor_type f) with
      | Some ty => comprehension (sensor_cond ty) results
      | None => Ok results
      end
  | ByLat =>
      match f_lat f with
      | Some x => comprehension (near_cond "gps_lat" x) results
      | None => Ok results
      end
  | ByLon =>
      match f_lon f with
      | Some x => comprehension (near_cond "gps_lon" x) results
      | None => Ok results
      end
  end.

Fixpoint apply_stages (f : Filters) (order : list stage)
    (results : list Mission) : result (list Mission) :=
  match order with
  | [] => Ok results
  | s :: rest => r ← apply_stage f s results; apply_stages f rest r
  end.

Definition source_order : list stage :=
  [ByStartDate; BySensorType; ByLat; ByLon].

(** [query_data] is the four steps in the order of the source. *)
Lemma query_data_stages (start_date sensor_type : option string)
    (lat lon : option pyfloat) (token : string) (st : State) :
  query_data start_date sensor_type lat lon token st =
  (_ ← get_current_user st token;
   results ← apply_stages (mk_filters start_date sensor_type lat lon)
                          source_order (dict_values (missions_db st));
   Ok (mk_query_response (mk_filters start_date sensor_type lat lon)
                         (Z.of_nat (length results)) results)).
Proof.
  unfold query_data. destruct (get_current_user st token); [|done].
  cbn [mbind result_bind source_order apply_stages apply_stage
       f_start_date f_sensor_type f_lat f_lon].
  destruct (given start_date) as [sd|], (given sensor_type) as [ty|],
    lat as [x|], lon as [y|];
    repeat (cbn [mbind result_bind]; try reflexivity;
            match goal with
            | |- context [comprehension ?c ?l] =>
                destruct (comprehension c l); [|reflexivity]
            end).
Qed.

(** What a step keeps. *)
Definition stage_keeps (f : Filters) (s : stage) (m : Mission) : bool :=
  match s with
  | ByStartDate => selects (given (f_start_date f)) None None None m
  | BySensorType => selects None (given (f_sensor_type f)) None None m
  | ByLat => selects None None (f_lat f) None m
  | ByLon => selects None None None (f_lon f) m
  end.

Lemma filter_all {A : Type} (l : list A) : List.filter (fun _ => true) l = l.
Proof. induction l as [|x l IH]; cbn; [done | now rewrite IH]. Qed.

Lemma filter_filter {A : Type} (p q : A → bool) (l : list A) :
  List.filter q (List.filter p l) = List.filter (fun x => p x && q x) l.
Proof.
  induction l as [|x l IH]; cbn; [done|].
  destruct (p x); cbn; rewrite IH; reflexivity.
Qed.

Lemma Forall_filter_bool {A : Type} (P : A → Prop) (p : A → bool)
    (l : list A) :
  Forall P l → Forall P (List.filter p l).
Proof.
  induction 1 as [|x l Hx _ IH]; cbn; [constructor|].
  destruct (p x); [now constructor | done].
Qed.

Lemma apply_stage_typed (f : Filters) (s : stage) (l : list Mission) :
  Forall typed l → apply_stage f s l = Ok (List.filter (stage_keeps f s) l).
Proof.
  intros T. destruct s; unfold apply_stage, stage_keeps.
  - pose proof (given_Some (f_start_date f)) as G.
    destruct (given (f_start_date f)) as [sd|].
    + apply comprehension_filter. eapply Forall_impl; [exact T|].
      intros m Tm. apply date_cond_typed; [|done]. now apply G.
    + now rewrite filter_all.
  - destruct (given (f_sensor_type f)) as [ty|].
    + apply comprehension_filter. apply Forall_forall.
      intros m _. apply sensor_cond_typed.
    + now rewrite filter_all.
  - destruct (f_lat f) as [x|].
    + apply comprehension_filter. eapply Forall_impl; [exact T|].
      intros m Tm. now apply lat_cond_typed.
    + now rewrite filter_all.
  - destruct (f_lon f) as [x|].
    + apply comprehension_filter. eapply Forall_impl; [exact T|].
      intros m Tm. now apply lon_cond_typed.
    + now rewrite filter_all.
Qed.

Lemma apply_stages_typed (f : Filters) (order : list stage) :
  ∀ l, Forall typed l →
       apply_stages f order l
       = Ok (List.filter
               (fun m => forallb (fun s => stage_keeps f s m) order) l).
Proof.
  induction order as [|s order IH]; intros l T; cbn [apply_stages forallb].
  - now rewrite filter_all.
  - rewrite apply_stage_typed by done. cbn [mbind result_bind].
    rewrite IH by now apply Forall_filter_bool.
    now rewrite filter_filter.
Qed.

Lemma selects_split (sd ty : option string) (lat lon : option pyfloat)
    (m : Mission) :
  selects sd ty lat lon m
  = selects sd None None None m
    && (selects None ty None None m
        && (selects None None lat None m
            && (selects None None None lon m && true))).
Proof.
  unfold selects. cbn [andb]. rewrite !andb_true_r, !andb_assoc.
  reflexivity.
Qed.

Lemma source_order_keeps (f : Filters) (m : Mission) :
  forallb (fun s => stage_keeps f s m) source_order
  = selects (given (f_start_date f)) (given (f_sensor_type f))
            (f_lat f) (f_lon f) m.
Proof. cbn [source_order forallb stage_keeps]. now rewrite <- selects_split. Qed.

(** For an authenticated caller on a table of typed missions, the query
    answers with the selected missions. *)
Lemma query_data_typed (start_date sensor_type : option string)
    (lat lon : option pyfloat) (token : string) (st : State) (user : User.t) :
  Forall typed (dict_values (missions_db st)) →
  get_current_user st token = Ok user →
  let f := mk_filters start_date sensor_type lat lon in
  query_data start_date sensor_type lat lon token st
  = Ok (mk_query_response f
          (Z.of_nat (length (selected f (dict_values (missions_db st)))))
          (selected f (dict_values (missions_db st)))).
Proof.
  intros T Auth f. rewrite query_data_stages, Auth.
  cbn [mbind result_bind]. rewrite apply_stages_typed by done.
  cbn [mbind result_bind]. unfold selected.
  rewrite (filter_ext _ _ (source_order_keeps (mk_filters start_date
                                                 sensor_type lat lon))).
  reflexivity.
Qed.

End Stages.

Section Query.
Context `{L : Libs}.

(** C4, amended: on a reachable state and for an authenticated caller,
    the query returns exactly the stored missions, in storage order,
    that satisfy every predicate in force: timestamp ≥ start_date in
    lexicographic order, sensor_type equal, |gps_lat - lat| ≤ 0.001,
    |gps_lon - lon| ≤ 0.001.  A predicate is in force when its option is
    supplied and, for start_date and sensor_type, is not the empty string;
    an absent or empty option imposes no constraint.  total_found is the
    number of results, the filter set is echoed as received, and with no
    predicate in force the whole table is returned. *)
Theorem query_data_selected (start_date sensor_type : option string)
    (lat lon : option pyfloat) (token : string) (st : State) (user : User.t) :
  reachable st → get_current_user st token = Ok user →
  let f := mk_filters start_date sensor_type lat lon in
  let all := dict_values (missions_db st) in
  query_data start_date sensor_type lat lon token st
  = Ok (mk_query_response f (Z.of_nat (length (selected f all)))
                          (selected f all))
  ∧ (∀ m, In m (selected f all)
          ↔ In m all
            ∧ selects (given start_date) (given sensor_type) lat lon m = true)
  ∧ (given start_date = None → given sensor_type = None →
     lat = None → lon = None → selected f all = all).
Proof.
  intros R Auth f all.
  split; [|split].
  - apply (query_data_typed _ _ _ _ _ _ user); [|done].
    apply store_ok_typed. now apply reachable_store_ok.
  - intros m. unfold selected. apply filter_In.
  - intros E1 E2 -> ->. unfold selected, f. cbn [f_start_date f_sensor_type
      f_lat f_lon]. rewrite E1, E2. apply filter_all.
Qed.

(** The options of a query, one at a time. *)
Definition only (f : Filters) (s : stage) : Filters :=
  match s with
  | ByStartDate => mk_filters (f_start_date f) None None None
  | BySensorType => mk_filters None (f_sensor_type f) None None
  | ByLat => mk_filters None None (f_lat f) None
  | ByLon => mk_filters None None None (f_lon f)
  end.

Definition query (f : Filters) (token : string) (st : State)
    : result QueryResponse :=
  query_data (f_start_date f) (f_sensor_type f) (f_lat f) (f_lon f) token st.

Lemma selected_only (f : Filters) (s : stage) (l : list Mission) :
  selected (only f s) l = List.filter (stage_keeps f s) l.
Proof.
  unfold selected. apply filter_ext. intros m.
  destruct s; cbn [only stage_keeps f_start_date f_sensor_type f_lat f_lon
                   given]; reflexivity.
Qed.

Lemma forallb_permutation {A : Type} (p : A → bool) (l l' : list A) :
  Permutation l l' → forallb p l = forallb p l'.
Proof.
  induction 1 as [|x l l' _ IH|x y l|l l' l'' _ IH1 _ IH2]; cbn.
  - reflexivity.
  - now rewrite IH.
  - now rewrite !andb_assoc, (andb_comm (p y)).
  - congruence.
Qed.

(** C5: on a reachable state and for an authenticated caller, a query
    with several options returns the intersection of what the queries
    with each of its options alone return (a query with an absent option
    alone returns the whole table); and applying the four filtering steps
    in any order yields the same result list as the query. *)
Theorem query_filters_intersect (f : Filters) (token : string) (st : State)
    (user : User.t) :
  reachable st → get_current_user st token = Ok user →
  ∃ r rd rs rlat rlon,
    query f token st = Ok r
    ∧ query (only f ByStartDate) token st = Ok rd
    ∧ query (only f BySensorType) token st = Ok rs
    ∧ query (only f ByLat) token st = Ok rlat
    ∧ query (only f ByLon) token st = Ok rlon
    ∧ (∀ m, In m (results r)
            ↔ In m (results rd) ∧ In m (results rs)
              ∧ In m (results rlat) ∧ In m (results rlon))
    ∧ (∀ order, Permutation source_order order →
                apply_stages f order (dict_values (missions_db st))
                = Ok (results r)).
Proof.
  intros R Auth.
  assert (Forall typed (dict_values (missions_db st))) as T
    by (apply store_ok_typed; now apply reachable_store_ok).
  unfold query.
  rewrite !(query_data_typed _ _ _ _ _ _ user T Auth).
  eexists _, _, _, _, _. repeat (split; [reflexivity|]).
  cbn [results].
  change (mk_filters (f_start_date (only f ByStartDate)) _ _ _)
    with (only f ByStartDate).
  change (mk_filters (f_start_date (only f BySensorType)) _ _ _)
    with (only f BySensorType).
  change (mk_filters (f_start_date (only f ByLat)) _ _ _) with (only f ByLat).
  change (mk_filters (f_start_date (only f ByLon)) _ _ _) with (only f ByLon).
  rewrite !selected_only. split.
  - intros m. unfold selected. rewrite !filter_In.
    cbn [f_start_date f_sensor_type f_lat f_lon].
    rewrite selects_split, !andb_true_iff. cbn [stage_keeps]. tauto.
  - intros order P. rewrite apply_stages_typed by done.
    f_equal. unfold selected. apply filter_ext. intros m.
    rewrite <- (forallb_permutation _ _ _ P).
    rewrite source_order_keeps. now destruct f.
Qed.

End Query.

Lemma query_data_selected_witness :
  let f := mk_filters (Some "2025-06") (Some "multispectral") None None in
  let all := dict_values (missions_db fleet_state) in
  query_data (L := clear_libs) (Some "2025-06") (Some "multispectral") None
             None alice_token fleet_state
  = Ok (mk_query_response f (Z.of_nat (length (selected f all)))
                          (selected f all))
  ∧ (∀ m, In m (selected f all)
          ↔ In m all
            ∧ selects (given (Some "2025-06")) (given (Some "multispectral"))
                      None None m = true)
  ∧ (given (Some "2025-06") = None → given (Some "multispectral") = None →
     @None pyfloat = None → @None pyfloat = None → selected f all = all).
Proof.
  exact (query_data_selected (L := clear_libs) (Some "2025-06")
           (Some "multispectral") None None alice_token fleet_state _
           fleet_state_reachable alice_authenticated).
Defined.

Lemma query_filters_intersect_witness :
  let f := mk_filters None (Some "multispectral") (Some (Finite 5.3275)) None in
  ∃ r rd rs rlat rlon,
    query (L := clear_libs) f alice_token fleet_state = Ok r
    ∧ query (L := clear_libs) (only f ByStartDate) alice_token fleet_state
      = Ok rd
    ∧ query (L := clear_libs) (only f BySensorType) alice_token fleet_state
      = Ok rs
    ∧ query (L := clear_libs) (only f ByLat) alice_token fleet_state = Ok rlat
    ∧ query (L := clear_libs) (only f ByLon) alice_token fleet_state = Ok rlon
    ∧ (∀ m, In m (results r)
            ↔ In m (results rd) ∧ In m (results rs)
              ∧ In m (results rlat) ∧ In m (results rlon))
    ∧ (∀ order, Permutation source_order order →
                apply_stages f order
                             (dict_values (missions_db fleet_state))
                = Ok (results r)).
Proof.
  exact (query_filters_intersect (L := clear_libs)
           (mk_filters None (Some "multispectral") (Some (Finite 5.3275)) None)
           alice_token fleet_state _ fleet_state_reachable
           alice_authenticated).
Defined.

(** ** Concrete runs *)

Example isoformat_whole_second :
  Datetime.isoformat (Datetime.mk_datetime 2025 3 7 4 5 6 0)
  = "2025-03-07T04:05:06".
Proof. reflexivity. Qed.

Example isoformat_microseconds :
  Datetime.isoformat example_now = "2026-01-02T03:04:05.000006".
Proof. reflexivity. Qed.

Example ordinal_round_trip_leap_day :
  Datetime.ord2ymd (Datetime.ymd2ord 2024 2 29) = (2024, 2, 29).
Proof. reflexivity. Qed.

Example half_year_offset :
  Datetime.add jan1 (Datetime.mul_float (Datetime.sub dec31 jan1) (1 # 2))
  = Datetime.mk_datetime 2025 7 2 0 0 0 0.
Proof. reflexivity. Qed.

Example round_half_even_down : py_round 0.125 2 = (0.12)%Q.
Proof. reflexivity. Qed.

Example round_half_even_up : py_round 0.375 2 = (0.38)%Q.
Proof. reflexivity. Qed.

Example round_of_the_double : py_round 2.675 2 = (2.67)%Q.
Proof. reflexivity. Qed.

Example the_double_nearest_a_thousandth :
  (Float.round64 0.001 == 1152921504606847 # 1152921504606846976)%Q.
Proof. vm_compute. reflexivity. Qed.

Example near_is_float_arithmetic :
  near (Finite 4.001) (Finite 4) = false
  ∧ Qle_bool (Qabs (4.001 - 4)) 0.001 = true
  ∧ near (Finite 4.0009) (Finite 4) = true
  ∧ near (Finite 4.001) NaN = false
  ∧ near (Finite 4.001) (Infinity false) = false.
Proof. repeat split; reflexivity. Qed.

Example fleet_keys :
  dict_keys (missions_db fleet_state) = ["M1001"; "M1002"; "M1003"].
Proof. reflexivity. Qed.

Example fleet_first_mission :
  (m ← dict_get "M1001" (missions_db fleet_state);
   Some (m !! "status", m !! "start_time", m !! "end_time",
         m !! "sensor_type", m !! "gps_lat", m !! "progress"))
  = Some (Some (PStr "completed"), Some (PStr "2025-05-02T05:40:21Z"),
          Some (PStr "2025-05-02T06:00:21Z"), Some (PStr "thermal"),
          Some (PFloat 4.664535), Some (PInt 42)).
Proof. reflexivity. Qed.

Example fleet_second_mission :
  (m ← dict_get "M1002" (missions_db fleet_state);
   Some (m !! "status", m !! "start_time", m !! "end_time"))
  = Some (Some (PStr "pending"), Some (PStr "2025-08-30T21:22:48Z"), None).
Proof. reflexivity. Qed.

Example query_by_sensor_type :
  found (query_data (L := clear_libs) None (Some "multispectral") None None
                    alice_token fleet_state) = Some 2.
Proof. reflexivity. Qed.

Example query_by_start_date :
  found (query_data (L := clear_libs) (Some "2025-08-30T12") None None None
                    alice_token fleet_state) = Some 1.
Proof. reflexivity. Qed.

Example query_without_token :
  found (query_data (L := clear_libs) None None None None "garbage"
                    fleet_state) = None.
Proof. reflexivity. Qed.

Example login_wrong_password :
  login (L := clear_libs) (UserLogin.mk "a@x.com" "wrong") alice_state
  = Raise (HTTPException 401 "Incorrect password").
Proof. reflexivity. Qed.

Example login_unknown_email :
  login (L := clear_libs) (UserLogin.mk "b@x.com" "pw1") alice_state
  = Raise (HTTPException 404 "User not found").
Proof. reflexivity. Qed.

Example signup_twice :
  fst (handle (L := clear_libs) (ReqSignup alice "salt2") alice_state)
  = RespError (HTTPException 400 "Email already registered").
Proof. reflexivity. Qed.

(** An instance of the library interface that behaves like bcrypt in two
    respects: a password holding a NUL character is refused with
    [PasswordValueError], and only the first 72 characters of a password
    are hashed. *)
Fixpoint has_nul (s : string) : bool :=
  match s with
  | EmptyString => false
  | String c s' => Ascii.eqb c Ascii.zero || has_nul s'
  end.

Definition truncating_libs : Libs := {|
  pwd_context_hash password salt :=
    if has_nul password then Raise PasswordValueError
    else Ok (String.substring 0 72 password);
  pwd_context_verify password hashed :=
    if has_nul password then Raise PasswordValueError
    else Ok (String.eqb (String.substring 0 72 password) hashed);
  jose_header algorithm := algorithm;
  jose_claims claims :=
    match claims !! "sub" with
    | Some (PStr s) => s
    | _ => ""
    end;
  jose_signature algorithm key signing_input := key;
  jwt_decode := clear_decode
|}.

Definition with_nul : string := String "p" (String Ascii.zero "w").

Definition long_password : string :=
  string_of_list_ascii (repeat "a"%char 72).

Example signup_refused_by_library :
  handle (L := truncating_libs)
         (ReqSignup (UserSignup.mk "A" "B" "a@x.com" with_nul) "salt")
         initial_state
  = (RespError PasswordValueError, initial_state).
Proof. reflexivity. Qed.

Example login_refused_by_library :
  let st := snd (handle (L := truncating_libs) (ReqSignup alice "salt")
                        initial_state) in
  login (L := truncating_libs) (UserLogin.mk "a@x.com" with_nul) st
  = Raise PasswordValueError.
Proof. reflexivity. Qed.

Example login_with_another_password :
  let carol := UserSignup.mk "C" "D" "c@x.com" (long_password +:+ "1") in
  let st := snd (handle (L := truncating_libs) (ReqSignup carol "salt")
                        initial_state) in
  long_password +:+ "2" ≠ long_password +:+ "1"
  ∧ login (L := truncating_libs)
          (UserLogin.mk "c@x.com" (long_password +:+ "2")) st
    = Ok (mk_login_response "success" "HS256.c@x.com.SUPER_SECRET_KEY_123"
                            "Bearer").
Proof. split; [discriminate | reflexivity]. Qed.

(** * Further properties of the handlers *)

(** ** The user table *)

Section Users.
Context `{L : Libs}.

Lemma handle_users_lookup (req : request) (st : State) (e : string)
    (u : User.t) :
  users_db st !! e = Some u → users_db (snd (handle req st)) !! e = Some u.
Proof.
  intros U. rewrite handle_users_db. destruct req; try exact U.
  destruct (users_db st !! UserSignup.email user) eqn:K; [exact U|].
  destruct (hash_password (UserSignup.password user) salt); [|exact U].
  rewrite lookup_insert_ne; [exact U | congruence].
Qed.

Lemma run_requests_users_lookup (st : State) (reqs : list request)
    (e : string) (u : User.t) :
  users_db st !! e = Some u → users_db (run_requests reqs st) !! e = Some u.
Proof.
  revert st. induction reqs as [|req reqs IH]; intros st U; [exact U|].
  apply IH. now apply handle_users_lookup.
Qed.

(** X1: a registered user is never updated or removed: after any sequence
    of requests the email still maps to the same record. *)
Theorem registered_users_never_change (st : State) (reqs : list request)
    (e : string) (u : User.t) :
  users_db st !! e = Some u → users_db (run_requests reqs st) !! e = Some u.
Proof. apply run_requests_users_lookup. Qed.

(** X2: once a sign-up for an email has succeeded, every later sign-up for
    that email, whatever its other fields and whatever requests came in
    between, is refused with 400 "Email already registered". *)
Theorem signup_refused_after_registration (st st1 : State)
    (user user' : UserSignup.t) (salt salt' : string) (r : StatusMessage)
    (reqs : list request) :
  signup user salt st = Ok (r, st1) →
  UserSignup.email user' = UserSignup.email user →
  signup user' salt' (run_requests reqs st1)
  = Raise (HTTPException 400 "Email already registered").
Proof.
  unfold signup at 1. intros S E.
  destruct (users_db st !! UserSignup.email user); [discriminate S|].
  destruct (hash_password (UserSignup.password user) salt);
    [|discriminate S].
  injection S as _ <-.
  unfold signup. rewrite E.
  erewrite run_requests_users_lookup; [reflexivity|].
  cbn [users_db]. apply lookup_insert_eq.
Qed.

(** X3: after a successful sign-up and any further requests, [get_me] with
    a token whose subject is that email answers with the email and the
    names given at sign-up. *)
Theorem get_me_after_signup (st st1 : State) (user : UserSignup.t)
    (salt : string) (r : StatusMessage) (reqs : list request)
    (token : string) (payload : gmap string pyval) :
  signup user salt st = Ok (r, st1) →
  decode_jwt token = Some payload →
  payload !! "sub" = Some (PStr (UserSignup.email user)) →
  get_me token (run_requests reqs st1)
  = Ok (mk_me_response (UserSignup.email user) (UserSignup.first_name user)
                       (UserSignup.last_name user)).
Proof.
  unfold signup. intros S D P.
  destruct (users_db st !! UserSignup.email user); [discriminate S|].
  destruct (hash_password (UserSignup.password user) salt);
    [|discriminate S].
  injection S as _ <-.
  unfold get_me, get_current_user. rewrite D, P.
  match goal with
  | |- context [users_db (run_requests reqs ?s)] =>
      rewrite (run_requests_users_lookup s reqs (UserSignup.email user)
                 _ (lookup_insert_eq _ _ _))
  end.
  reflexivity.
Qed.

(** The library decodes the token it issued for [email] to the claims it
    was issued with. *)
Definition token_round_trip (email : string) : Prop :=
  decode_jwt (create_jwt {[ "sub" := PStr email ]})
  = Some {[ "sub" := PStr email ]}.

(** X4: the token that a successful login returns resolves, then and after
    any further requests, to the record of the user who logged in: there
    is no expiry and no revocation. *)
Theorem login_token_resolves (st : State) (credentials : UserLogin.t)
    (resp : LoginResponse) (reqs : list request) :
  token_round_trip (UserLogin.email credentials) →
  login credentials st = Ok resp →
  ∃ u, users_db st !! UserLogin.email credentials = Some u
       ∧ get_current_user (run_requests reqs st) (access_token resp) = Ok u.
Proof.
  unfold token_round_trip, login. intros T Lg.
  destruct (users_db st !! UserLogin.email credentials) as [u|] eqn:U;
    [|discriminate Lg].
  destruct (verify_password _ _) as [verified|e]; [|discriminate Lg].
  cbn [mbind result_bind] in Lg.
  destruct (negb verified); [discriminate Lg|]. injection Lg as <-.
  exists u. split; [reflexivity|].
  cbn [access_token]. unfold get_current_user. rewrite T.
  rewrite lookup_singleton_eq.
  now rewrite (run_requests_users_lookup st reqs _ u U).
Qed.

(** X5: in a reachable state every user record is filed under its own
    email. *)
Theorem users_filed_under_email (st : State) (e : string) (u : User.t) :
  reachable st → users_db st !! e = Some u → User.email u = e.
Proof.
  intros R. revert e u. induction R as [|req st _ IH]; intros e u.
  - cbn. now rewrite lookup_empty.
  - rewrite handle_users_db. destruct req; try apply IH.
    destruct (users_db st !! UserSignup.email user); [apply IH|].
    destruct (hash_password (UserSignup.password user) salt); [|apply IH].
    destruct (decide (UserSignup.email user = e)) as [<-|N].
    + rewrite lookup_insert_eq. now intros [= <-].
    + rewrite lookup_insert_ne by done. apply IH.
Qed.

End Users.

Lemma registered_users_never_change_witness :
  users_db
    (run_requests (L := clear_libs)
       [ReqSignup (UserSignup.mk "X" "Y" "a@x.com" "other") "s";
        ReqSimulate 1 alice_token example_rng example_now]
       alice_state) !! "a@x.com"
  = Some (User.mk "A" "B" "a@x.com" "pw1").
Proof.
  exact (registered_users_never_change (L := clear_libs) alice_state _
           "a@x.com" _ eq_refl).
Defined.

Lemma signup_refused_after_registration_witness :
  signup (L := clear_libs) (UserSignup.mk "X" "Y" "a@x.com" "other") "s"
         (run_requests (L := clear_libs)
            [ReqSimulate 1 alice_token example_rng example_now] alice_state)
  = Raise (HTTPException 400 "Email already registered").
Proof.
  exact (signup_refused_after_registration (L := clear_libs) initial_state
           alice_state alice (UserSignup.mk "X" "Y" "a@x.com" "other")
           "salt" "s" _ _ eq_refl eq_refl).
Defined.

Lemma get_me_after_signup_witness :
  get_me (L := clear_libs) alice_token
         (run_requests (L := clear_libs)
            [ReqSimulate 1 alice_token example_rng example_now] alice_state)
  = Ok (mk_me_response "a@x.com" "A" "B").
Proof.
  exact (get_me_after_signup (L := clear_libs) initial_state alice_state
           alice "salt" _ _ alice_token _ eq_refl eq_refl eq_refl).
Defined.

Lemma login_token_resolves_witness :
  ∃ u, users_db alice_state !! "a@x.com" = Some u
       ∧ get_current_user (L := clear_libs)
           (run_requests (L := clear_libs)
              [ReqSimulate 1 alice_token example_rng example_now]
              alice_state)
           alice_token = Ok u.
Proof.
  exact (login_token_resolves (L := clear_libs) alice_state
           (UserLogin.mk "a@x.com" "pw1") _ _ eq_refl eq_refl).
Defined.

Lemma users_filed_under_email_witness :
  User.email (User.mk "A" "B" "a@x.com" "pw1") = "a@x.com".
Proof.
  exact (users_filed_under_email (L := clear_libs) alice_state "a@x.com" _
           alice_state_reachable eq_refl).
Defined.

(** ** Mission lookup *)

Lemma dict_get_position {V : Type} (d : list (string * V)) (j : nat)
    (k : string) (v : V) :
  NoDup (dict_keys d) → d !! j = Some (k, v) → dict_get k d = Some v.
Proof.
  revert j. induction d as [|[k' v'] t IH]; intros j N H; [done|].
  cbn in N. apply NoDup_cons in N as [Nk Nt].
  destruct j as [|j].
  - injection H as -> ->. cbn. now rewrite String.eqb_refl.
  - change (t !! j = Some (k, v)) in H.
    cbn. destruct (String.eqb_spec k' k) as [->|_]; [|now apply (IH j)].
    exfalso. apply Nk. apply list_elem_of_lookup. exists j.
    unfold dict_keys. change (map fst t) with (fst <$> t).
    now rewrite list_lookup_fmap, H.
Qed.

Lemma ids_in_sequence_NoDup (db : list (string * Mission)) :
  ids_in_sequence db → NoDup (dict_keys db).
Proof.
  intros ->. apply NoDup_fmap_2; [|apply NoDup_seq].
  intros i j. apply mission_key_inj.
Qed.

Lemma ids_in_sequence_position (db : list (string * Mission)) (j : nat)
    (k : string) (m : Mission) :
  ids_in_sequence db → db !! j = Some (k, m) → k = mission_key (S j).
Proof.
  intros Hids H.
  assert (dict_keys db !! j = Some k) as K.
  { unfold dict_keys. change (map fst db) with (fst <$> db).
    now rewrite list_lookup_fmap, H. }
  rewrite Hids in K. apply list_lookup_fmap_Some in K as (i & -> & Hi).
  apply lookup_seq in Hi as [-> _]. reflexivity.
Qed.

Definition mission_not_found (mission_id : string) : exn :=
  HTTPException 404 ("Mission '" +:+ mission_id +:+ "' not found").

Section Lookup.
Context `{L : Libs}.

Lemma get_current_user_same_users (st st' : State) (token : string) :
  users_db st' = users_db st →
  get_current_user st' token = get_current_user st token.
Proof. unfold get_current_user. now intros ->. Qed.

(** X6: on a reachable state holding [c] missions, an authenticated status
    lookup of the [i]-th identifier ([1 ≤ i ≤ c]) returns the [i]-th stored
    mission, whose "mission_id" field is that identifier; the lookup of
    any other identifier fails with 404 "Mission '<id>' not found". *)
Theorem get_mission_status_outcomes (st : State) (token : string)
    (user : User.t) :
  reachable st → get_current_user st token = Ok user →
  (∀ i, (1 ≤ i ≤ length (missions_db st))%nat →
        ∃ m, get_mission_status (mission_key i) token st = Ok m
             ∧ dict_values (missions_db st) !! (i - 1)%nat = Some m
             ∧ m !! "mission_id" = Some (PStr (mission_key i)))
  ∧ (∀ id, (∀ i, (1 ≤ i ≤ length (missions_db st))%nat → id ≠ mission_key i) →
           get_mission_status id token st = Raise (mission_not_found id)).
Proof.
  intros R Auth. destruct (reachable_store_ok st R) as [Hids Hall].
  unfold get_mission_status. rewrite Auth. cbn [mbind result_bind]. split.
  - intros i Hi.
    destruct (lookup_lt_is_Some_2 (missions_db st) (i - 1)%nat ltac:(lia))
      as [[k m] Hkm].
    pose proof (ids_in_sequence_position _ _ _ _ Hids Hkm) as ->.
    replace (S (i - 1)) with i in * by lia.
    rewrite (dict_get_position _ _ _ _ (ids_in_sequence_NoDup _ Hids) Hkm).
    exists m. split; [reflexivity|]. split.
    + unfold dict_values. change (map snd ?d) with (snd <$> d).
      now rewrite list_lookup_fmap, Hkm.
    + rewrite Forall_lookup in Hall. specialize (Hall _ _ Hkm). cbn in Hall.
      destruct Hall
        as (s1 & s2 & u & mins & lat & lon & p & _ & _ & _ & _ & _ & _ & _ & ->).
      apply record_mission_id.
  - intros id Hid.
    destruct (dict_get id (missions_db st)) as [m|] eqn:G; [|reflexivity].
    exfalso. assert (dict_get id (missions_db st) ≠ None) as G' by congruence.
    rewrite dict_get_None in G'. apply G'. clear G'. intros X.
    rewrite Hids in X. apply list_elem_of_fmap in X as (i & -> & Hi).
    apply list_elem_of_In, in_seq in Hi. apply (Hid i); [lia | reflexivity].
Qed.

(** X7: insert then look up.  After an authenticated [simulate] on a
    reachable state, the status lookup of the identifier of each mission of
    the run returns that very mission. *)
Theorem simulate_then_status (st : State) (num : Z) (token : string)
    (g : Random.Rng) (now : Datetime.datetime) (user : User.t) :
  reachable st → get_current_user st token = Ok user →
  ∃ run st',
    simulate_missions num token g now st = Ok (run, st')
    ∧ ∀ i m, SimulationRun.missions run !! i = Some m →
        ∃ id, m !! "mission_id" = Some (PStr id)
              ∧ get_mission_status id token st' = Ok m.
Proof.
  intros R Auth. destruct (reachable_store_ok st R) as [Hids Hall].
  destruct (simulate_missions_appends st num token g now user Hids Auth)
    as (new & E & Hlen & Hnew).
  eexists _, _. split; [exact E|].
  cbn [SimulationRun.missions run_of]. intros i m Hi.
  exists (mission_key (S (length (missions_db st)) + i)). split.
  - destruct (Hnew i m Hi)
      as (s1 & s2 & u & mins & lat & lon & p & _ & _ & _ & _ & _ & _ & _ & ->).
    apply record_mission_id.
  - unfold get_mission_status.
    match goal with
    | |- context [get_current_user ?s token] =>
        rewrite (get_current_user_same_users st s token eq_refl), Auth
    end.
    cbn [mbind result_bind missions_db].
    assert (store_ok (missions_db st
                      ++ appended (length (missions_db st)) new)) as [Hids' _]
      by now apply store_ok_appended.
    rewrite (dict_get_position _ (length (missions_db st) + i) _ m
               (ids_in_sequence_NoDup _ Hids')); [reflexivity|].
    rewrite lookup_app_r by lia.
    replace (length (missions_db st) + i - length (missions_db st))%nat
      with i by lia.
    unfold appended. clear - Hi. revert i Hi.
    generalize (S (length (missions_db st))).
    induction new as [|x new IH]; intros a i Hi; [done|].
    destruct i as [|i]; cbn in Hi |- *.
    + injection Hi as ->. now rewrite Nat.add_0_r.
    + replace (a + S i)%nat with (S a + i)%nat by lia. now apply IH.
Qed.

End Lookup.

Lemma get_mission_status_outcomes_witness :
  (∀ i, (1 ≤ i ≤ 3)%nat →
        ∃ m, get_mission_status (L := clear_libs) (mission_key i) alice_token
               fleet_state = Ok m
             ∧ dict_values (missions_db fleet_state) !! (i - 1)%nat = Some m
             ∧ m !! "mission_id" = Some (PStr (mission_key i)))
  ∧ (∀ id, (∀ i, (1 ≤ i ≤ 3)%nat → id ≠ mission_key i) →
           get_mission_status (L := clear_libs) id alice_token fleet_state
           = Raise (mission_not_found id)).
Proof.
  exact (get_mission_status_outcomes (L := clear_libs) fleet_state
           alice_token _ fleet_state_reachable alice_authenticated).
Defined.

Lemma simulate_then_status_witness :
  ∃ run st',
    simulate_missions (L := clear_libs) 2 alice_token example_rng example_now
                      fleet_state = Ok (run, st')
    ∧ ∀ i m, SimulationRun.missions run !! i = Some m →
        ∃ id, m !! "mission_id" = Some (PStr id)
              ∧ get_mission_status (L := clear_libs) id alice_token st' = Ok m.
Proof.
  exact (simulate_then_status (L := clear_libs) fleet_state 2 alice_token
           example_rng example_now _ fleet_state_reachable
           alice_authenticated).
Defined.

(** ** Every mission the server hands out is a simulated one *)

Definition well_formed (m : Mission) : Prop :=
  fields_in_range m ∧ end_time_consistent m ∧ duplicated_fields m.

Lemma generated_well_formed (id : string) (m : Mission) :
  generated id m → well_formed m.
Proof.
  intros G. split; [|split].
  - now apply (generated_fields_in_range id).
  - now apply (generated_end_time_consistent id).
  - now apply (generated_duplicated_fields id).
Qed.

Lemma store_ok_well_formed (db : list (string * Mission)) :
  store_ok db → Forall well_formed (dict_values db).
Proof.
  intros [_ Hall]. unfold dict_values. apply Forall_fmap.
  eapply Forall_impl; [exact Hall|].
  intros [k m] G. now apply (generated_well_formed k).
Qed.

Section HandedOut.
Context `{L : Libs}.

(** X8: in every reachable state, every mission that a status lookup or a
    query returns has its fields in the simulator's ranges, an end time
    exactly when completed (later than the start), and equal duplicated
    fields: what holds of a mission at creation holds of every answer
    later. *)
Theorem answers_are_well_formed (st : State) :
  reachable st →
  (∀ id token m, get_mission_status id token st = Ok m → well_formed m)
  ∧ (∀ start_date sensor_type lat lon token r,
       query_data start_date sensor_type lat lon token st = Ok r →
       Forall well_formed (results r)
       ∧ total_found r = Z.of_nat (length (results r))).
Proof.
  intros R. pose proof (reachable_store_ok st R) as Hok.
  pose proof (store_ok_well_formed _ Hok) as W. split.
  - intros id token m. unfold get_mission_status.
    destruct (get_current_user st token); [|discriminate].
    cbn [mbind result_bind].
    destruct (dict_get id (missions_db st)) as [x|] eqn:G; [|discriminate].
    intros [= <-]. rewrite Forall_forall in W. apply W.
    now apply (dict_get_values id).
  - intros sd ty lat lon token r Q.
    destruct (get_current_user st token) as [user|e] eqn:Auth.
    + rewrite (query_data_typed sd ty lat lon token st user
                 (store_ok_typed _ Hok) Auth) in Q.
      injection Q as <-. cbn [results total_found]. split; [|reflexivity].
      unfold selected. now apply Forall_filter_bool.
    + unfold query_data in Q. rewrite Auth in Q. discriminate Q.
Qed.

End HandedOut.

Lemma answers_are_well_formed_witness :
  (∀ id token m,
     get_mission_status (L := clear_libs) id token fleet_state = Ok m →
     well_formed m)
  ∧ (∀ start_date sensor_type lat lon token r,
       query_data (L := clear_libs) start_date sensor_type lat lon token
                  fleet_state = Ok r →
       Forall well_formed (results r)
       ∧ total_found r = Z.of_nat (length (results r))).
Proof.
  exact (answers_are_well_formed (L := clear_libs) fleet_state
           fleet_state_reachable).
Defined.

(** ** Duration of a completed mission *)

(** The end time of a mission, when present, is a whole number of minutes,
    between 1 and 180, after its start time, and still in 2025. *)
Definition duration_in_range (m : Mission) : Prop :=
  ∀ e, m !! "end_time" = Some e →
    ∃ s t mins,
      m !! "start_time" = Some (PStr (Datetime.isoformat s +:+ "Z"))
      ∧ e = PStr (Datetime.isoformat t +:+ "Z")
      ∧ 1 ≤ mins ≤ 180
      ∧ Datetime.sub t s = Datetime.timedelta_minutes mins
      ∧ Datetime.year s = 2025 ∧ Datetime.year t = 2025
      ∧ Datetime.microsecond s = 0 ∧ Datetime.microsecond t = 0.

Lemma to_us_truncated (u : Z) :
  0 ≤ u < 365 * Datetime.us_per_day →
  Datetime.to_us (Datetime.replace_microsecond0 (InstantFacts.instant u))
  = DatetimeFacts.ord2025 * Datetime.us_per_day + u
    - u mod Datetime.us_per_second
  ∧ Datetime.year (InstantFacts.instant u) = 2025.
Proof.
  intros Hu.
  pose proof (DatetimeFacts.to_of_us_2025 u Hu) as T.
  fold (InstantFacts.instant u) in T.
  destruct (InstantFacts.instant_fields u Hu)
    as (mo & d & h & mi & s & E & _).
  rewrite E in *. split; [|reflexivity].
  unfold Datetime.to_us, Datetime.toordinal, Datetime.replace_microsecond0
    in *.
  cbn [Datetime.year Datetime.month Datetime.day Datetime.hour
       Datetime.minute Datetime.second Datetime.microsecond] in *.
  unfold Datetime.us_per_day, Datetime.us_per_second in *.
  Z.div_mod_to_equations. lia.
Qed.

Lemma generated_duration_in_range (id : string) (m : Mission) :
  generated id m → duration_in_range m.
Proof.
  intros (sensor & status & u & mins & lat & lon & p
          & _ & _ & Hu & Hm & _ & _ & _ & ->).
  unfold duration_in_range. rewrite record_end_time, record_start_time.
  destruct (String.eqb status "completed"); [|intros e X; discriminate X].
  intros e [= <-].
  assert (0 ≤ u < 365 * Datetime.us_per_day) as Hu1
    by (unfold Datetime.us_per_day, Datetime.us_per_second in *; lia).
  assert (0 ≤ u + Datetime.timedelta_minutes mins
          < 365 * Datetime.us_per_day) as Hu2
    by (unfold Datetime.timedelta_minutes, Datetime.us_per_day,
          Datetime.us_per_second in *; lia).
  destruct (to_us_truncated u Hu1) as [T1 Y1].
  destruct (to_us_truncated _ Hu2) as [T2 Y2].
  exists (Datetime.replace_microsecond0 (InstantFacts.instant u)),
    (Datetime.replace_microsecond0
       (InstantFacts.instant (u + Datetime.timedelta_minutes mins))), mins.
  split; [reflexivity|]. split; [reflexivity|]. split; [exact Hm|].
  split; [|now repeat split].
  unfold Datetime.sub. rewrite T1, T2.
  unfold Datetime.timedelta_minutes, Datetime.us_per_second.
  Z.div_mod_to_equations. lia.
Qed.

Section Duration.
Context `{L : Libs}.

(** X9: an authenticated call to the simulator returns, and every mission
    of the run that has an end time ends a whole number of minutes between
    1 and 180 after it starts, still within 2025. *)
Theorem simulate_duration_in_range (st : State) (num : Z) (token : string)
    (g : Random.Rng) (now : Datetime.datetime) (user : User.t) :
  get_current_user st token = Ok user →
  ∃ run st',
    simulate_missions num token g now st = Ok (run, st')
    ∧ Forall duration_in_range (SimulationRun.missions run).
Proof.
  intros Auth.
  destruct (simulate_missions_returns st num token g now user Auth)
    as (new & db & -> & Hlen & Hall).
  eexists _, _. split; [reflexivity|].
  cbn [SimulationRun.missions run_of].
  eapply Forall_impl; [exact Hall|].
  intros m [id Hgen]. now apply (generated_duration_in_range id).
Qed.

End Duration.

Lemma simulate_duration_in_range_witness :
  ∃ run st',
    simulate_missions (L := clear_libs) 3 alice_token example_rng example_now
                      alice_state = Ok (run, st')
    ∧ Forall duration_in_range (SimulationRun.missions run).
Proof.
  exact (simulate_duration_in_range (L := clear_libs) alice_state 3
           alice_token example_rng example_now _ alice_authenticated).
Defined.

(** ** The simulation log and the upload log *)

(** The runs are numbered 1, 2, ... in order; each run holds as many
    missions as its requested count asks for (none for a count ≤ 0); the
    stored missions are those of the runs, run after run. *)
Definition log_ok (st : State) : Prop :=
  map SimulationRun.simulation_id (simulations_db st)
  = map Z.of_nat (seq 1 (length (simulations_db st)))
  ∧ Forall (fun run => length (SimulationRun.missions run)
                       = Z.to_nat (SimulationRun.missions_generated run))
           (simulations_db st)
  ∧ dict_values (missions_db st)
    = concat (map SimulationRun.missions (simulations_db st)).

Section Logs.
Context `{L : Libs}.

(** A request either leaves both mission tables alone or is a successful
    simulation. *)
Lemma handle_simulation_effect (req : request) (st : State) :
  ids_in_sequence (missions_db st) →
  (missions_db (snd (handle req st)) = missions_db st
   ∧ simulations_db (snd (handle req st)) = simulations_db st)
  ∨ ∃ num now new,
      missions_db (snd (handle req st))
      = missions_db st ++ appended (length (missions_db st)) new
      ∧ simulations_db (snd (handle req st))
        = simulations_db st ++ [run_of st num now new]
      ∧ length new = Z.to_nat num.
Proof.
  intros Hids. destruct req; cbn [handle].
  - left. unfold signup.
    destruct (users_db st !! UserSignup.email user); [done|].
    now destruct (hash_password (UserSignup.password user) salt).
  - left. now destruct (login credentials st).
  - left. now destruct (get_me token st).
  - left. unfold upload_data. now destruct (get_current_user st token).
  - left. now destruct (get_mission_status mission_id token st).
  - left. now destruct (query_data start_date sensor_type lat lon token st).
  - destruct (get_current_user st token) as [user|e] eqn:Auth.
    + right.
      destruct (simulate_missions_appends st num token g now user Hids Auth)
        as (new & -> & Hlen & _).
      now exists num, now, new.
    + left. unfold simulate_missions. now rewrite Auth.
  - left. now destruct (get_simulations token st).
Qed.

Lemma reachable_log_ok (st : State) : reachable st → log_ok st.
Proof.
  induction 1 as [|req st R (Hid & Hlen & Hval)].
  - repeat split. constructor.
  - pose proof (reachable_store_ok st R) as [Hids _].
    destruct (handle_simulation_effect req st Hids)
      as [[E1 E2]|(num & now & new & E1 & E2 & Hn)];
      unfold log_ok; rewrite E1, E2; [done|].
    split; [|split].
    + rewrite map_app, length_app, Hid. cbn [length map].
      replace (length (simulations_db st) + 1)%nat
        with (S (length (simulations_db st))) by lia.
      rewrite seq_S, map_app. cbn [map run_of SimulationRun.simulation_id].
      do 2 f_equal. lia.
    + apply Forall_app. split; [done|]. now constructor.
    + rewrite dict_values_app, appended_values, map_app, concat_app, Hval.
      cbn. now rewrite app_nil_r.
Qed.

(** X10: in a reachable state the runs of the simulation log are numbered
    1, 2, 3, ... in the order they were made, so [get_simulations] lists
    them by increasing [simulation_id] without gap or repetition. *)
Theorem simulation_ids_sequential (st : State) (i : nat)
    (run : SimulationRun.t) :
  reachable st → simulations_db st !! i = Some run →
  SimulationRun.simulation_id run = Z.of_nat i + 1.
Proof.
  intros R H. destruct (reachable_log_ok st R) as (Hid & _ & _).
  assert (map SimulationRun.simulation_id (simulations_db st) !! i
          = Some (SimulationRun.simulation_id run)) as K.
  { change (map ?f ?l) with (f <$> l). now rewrite list_lookup_fmap, H. }
  rewrite Hid in K. change (map ?f ?l) with (f <$> l) in K.
  apply list_lookup_fmap_Some in K as (j & -> & Hj).
  apply lookup_seq in Hj as [-> _]. lia.
Qed.

(** X11: in a reachable state the stored missions are exactly the missions
    of the logged runs, run after run in order, and every run holds
    [max(missions_generated, 0)] missions. *)
Theorem missions_partitioned_by_runs (st : State) :
  reachable st →
  dict_values (missions_db st)
  = concat (map SimulationRun.missions (simulations_db st))
  ∧ Forall (fun run => Z.of_nat (length (SimulationRun.missions run))
                       = Z.max (SimulationRun.missions_generated run) 0)
           (simulations_db st).
Proof.
  intros R. destruct (reachable_log_ok st R) as (_ & Hlen & Hval).
  split; [exact Hval|].
  eapply Forall_impl; [exact Hlen|]. cbn beta. intros run ->. lia.
Qed.

Lemma handle_logs_grow (req : request) (st : State) :
  ∃ d s,
    data_db (snd (handle req st)) = data_db st ++ d
    ∧ simulations_db (snd (handle req st)) = simulations_db st ++ s.
Proof.
  assert (∃ d s, data_db st = data_db st ++ d
                 ∧ simulations_db st = simulations_db st ++ s) as Same
    by (exists [], []; now rewrite !app_nil_r).
  destruct req; cbn [handle].
  - unfold signup. destruct (users_db st !! UserSignup.email user);
      [exact Same|].
    destruct (hash_password (UserSignup.password user) salt);
      [|exact Same].
    exists [], []. cbn. now rewrite !app_nil_r.
  - destruct (login credentials st); exact Same.
  - destruct (get_me token st); exact Same.
  - unfold upload_data. destruct (get_current_user st token); [|exact Same].
    exists [data], []. cbn. now rewrite app_nil_r.
  - destruct (get_mission_status mission_id token st); exact Same.
  - destruct (query_data start_date sensor_type lat lon token st); exact Same.
  - unfold simulate_missions.
    destruct (get_current_user st token); [|exact Same].
    cbn [mbind result_bind].
    destruct (simulate_loop (Z.to_nat num) (missions_db st) [] g)
      as [[db created] g'].
    eexists [], [_]. cbn. now rewrite app_nil_r.
  - destruct (get_simulations token st); exact Same.
Qed.

(** X12: the upload log and the simulation log are append-only: after any
    sequence of requests, from any state, both begin with what they held
    before. *)
Theorem logs_append_only (st : State) (reqs : list request) :
  ∃ d s,
    data_db (run_requests reqs st) = data_db st ++ d
    ∧ simulations_db (run_requests reqs st) = simulations_db st ++ s.
Proof.
  revert st. induction reqs as [|req reqs IH]; intros st.
  - exists [], []. cbn. now rewrite !app_nil_r.
  - destruct (handle_logs_grow req st) as (d1 & s1 & D1 & S1).
    destruct (IH (snd (handle req st))) as (d2 & s2 & D2 & S2).
    exists (d1 ++ d2), (s1 ++ s2).
    cbn [run_requests fold_left]. fold (run_requests reqs (handle req st).2).
    now rewrite D2, S2, D1, S1, <- !app_assoc.
Qed.

(** X13: simulate, then list.  After an authenticated [simulate], the
    listing returns the previous log followed by the run just returned,
    whose [simulation_id] is the new length of the log. *)
Theorem simulate_then_simulations (st : State) (num : Z) (token : string)
    (g : Random.Rng) (now : Datetime.datetime) (user : User.t) :
  get_current_user st token = Ok user →
  ∃ run st',
    simulate_missions num token g now st = Ok (run, st')
    ∧ get_simulations token st' = Ok (simulations_db st ++ [run])
    ∧ SimulationRun.simulation_id run
      = Z.of_nat (length (simulations_db st ++ [run])).
Proof.
  intros Auth.
  destruct (simulate_missions_returns st num token g now user Auth)
    as (new & db & -> & _ & _).
  eexists _, _. split; [reflexivity|]. split.
  - unfold get_simulations.
    match goal with
    | |- context [get_current_user ?s token] =>
        rewrite (get_current_user_same_users st s token eq_refl), Auth
    end.
    reflexivity.
  - rewrite length_app. cbn. lia.
Qed.

End Logs.

Lemma simulation_ids_sequential_witness :
  SimulationRun.simulation_id (run_of fleet_state (-1) example_now [])
  = Z.of_nat 1 + 1.
Proof.
  exact (simulation_ids_sequential (L := clear_libs)
           (snd (handle (L := clear_libs)
                   (ReqSimulate (-1) alice_token example_rng example_now)
                   fleet_state))
           1 _
           (reachable_handle _ _ fleet_state_reachable) eq_refl).
Defined.

Lemma missions_partitioned_by_runs_witness :
  dict_values (missions_db fleet_state)
  = concat (map SimulationRun.missions (simulations_db fleet_state))
  ∧ Forall (fun run => Z.of_nat (length (SimulationRun.missions run))
                       = Z.max (SimulationRun.missions_generated run) 0)
           (simulations_db fleet_state).
Proof.
  exact (missions_partitioned_by_runs (L := clear_libs) fleet_state
           fleet_state_reachable).
Defined.

Lemma simulate_then_simulations_witness :
  ∃ run st',
    simulate_missions (L := clear_libs) 2 alice_token example_rng example_now
                      fleet_state = Ok (run, st')
    ∧ get_simulations (L := clear_libs) alice_token st'
      = Ok (simulations_db fleet_state ++ [run])
    ∧ SimulationRun.simulation_id run
      = Z.of_nat (length (simulations_db fleet_state ++ [run])).
Proof.
  exact (simulate_then_simulations (L := clear_libs) fleet_state 2
           alice_token example_rng example_now _ alice_authenticated).
Defined.

(** ** Errors and authentication *)

(** The token a request carries; sign-up and login carry none. *)
Definition token_of (req : request) : option string :=
  match req with
  | ReqSignup _ _ | ReqLogin _ => None
  | ReqMe token | ReqUpload _ token | ReqMissionStatus _ token
  | ReqQuery _ _ _ _ token | ReqSimulate _ token _ _
  | ReqSimulations token => Some token
  end.

(** The errors the handlers raise on purpose. *)
Definition expected_error (e : exn) : Prop :=
  e = HTTPException 400 "Email already registered"
  ∨ e = HTTPException 404 "User not found"
  ∨ e = HTTPException 401 "Incorrect password"
  ∨ e = HTTPException 401 "Invalid or expired token"
  ∨ ∃ mission_id, e = mission_not_found mission_id.

Section Errors.
Context `{L : Libs}.

Lemma get_current_user_raises (st : State) (token : string) (e : exn) :
  get_current_user st token = Raise e →
  e = HTTPException 401 "Invalid or expired token"
  ∨ e = HTTPException 404 "User not found".
Proof.
  rewrite get_current_user_cases.
  destruct (decode_jwt token) as [payload|]; [|intros [= <-]; now left].
  destruct (subject_user st payload); [discriminate|].
  intros [= <-]. now right.
Qed.

(** X14: every protected operation (me, upload, status lookup, query,
    simulate, simulations listing) whose token does not resolve answers
    with the error of session resolution and changes nothing. *)
Theorem unauthenticated_request_rejected (st : State) (req : request)
    (token : string) (e : exn) :
  token_of req = Some token → get_current_user st token = Raise e →
  handle req st = (RespError e, st).
Proof.
  intros T Auth.
  destruct req; cbn in T; try discriminate T; injection T as ->;
    cbn [handle];
    unfold get_me, upload_data, get_mission_status, query_data,
      simulate_missions, get_simulations;
    rewrite Auth; reflexivity.
Qed.

(** An exception that the password library raised while serving the
    request: in [hash_password] for a sign-up, in [verify_password]
    against the stored hash for a login. *)
Definition raised_by_library (req : request) (st : State) (e : exn) : Prop :=
  match req with
  | ReqSignup user salt =>
      users_db st !! UserSignup.email user = None
      ∧ hash_password (UserSignup.password user) salt = Raise e
  | ReqLogin credentials =>
      ∃ u, users_db st !! UserLogin.email credentials = Some u
           ∧ verify_password (UserLogin.password credentials)
                             (User.password u) = Raise e
  | _ => False
  end.

(** X15: in a reachable state a request that fails raises one of the five
    HTTP errors of the source (400 duplicate email, 404 unknown user, 401
    wrong password, 401 invalid token, 404 unknown mission) or, for a
    sign-up or a login only, the exception that the password library
    itself raised; no request on the missions (lookup, query, simulate)
    ever ends in a [TypeError] or an [OverflowError]. *)
Theorem errors_are_expected (st : State) (req : request) (e : exn) :
  reachable st → fst (handle req st) = RespError e →
  expected_error e ∨ raised_by_library req st e.
Proof.
  intros R. pose proof (reachable_store_ok st R) as Hok.
  assert (∀ token, get_current_user st token = Raise e → expected_error e)
    as A.
  { intros token X. apply get_current_user_raises in X as [->| ->];
      unfold expected_error; tauto. }
  destruct req; cbn [handle raised_by_library].
  - unfold signup.
    destruct (users_db st !! UserSignup.email user) eqn:U; cbn.
    + intros [= <-]. left. now left.
    + destruct (hash_password (UserSignup.password user) salt) eqn:H; cbn;
        [discriminate|]. intros [= <-]. now right.
  - unfold login.
    destruct (users_db st !! UserLogin.email credentials) as [u|] eqn:U.
    + destruct (verify_password (UserLogin.password credentials)
                                (User.password u)) as [v|e'] eqn:V;
        cbn [mbind result_bind].
      * destruct (negb v); cbn; [|discriminate].
        intros [= <-]. left. unfold expected_error. tauto.
      * cbn. intros [= <-]. right. now exists u.
    + cbn. intros [= <-]. left. unfold expected_error. tauto.
  - unfold get_me. destruct (get_current_user st token) eqn:Auth; cbn;
      [discriminate|]. intros [= <-]. left. now apply (A token).
  - unfold upload_data. destruct (get_current_user st token) eqn:Auth; cbn;
      [discriminate|]. intros [= <-]. left. now apply (A token).
  - unfold get_mission_status.
    destruct (get_current_user st token) eqn:Auth; cbn;
      [|intros [= <-]; left; now apply (A token)].
    destruct (dict_get mission_id (missions_db st)); cbn; [discriminate|].
    intros [= <-]. left. do 4 right. now exists mission_id.
  - destruct (get_current_user st token) as [user|e'] eqn:Auth.
    + rewrite (query_data_typed _ _ _ _ token st user
                 (store_ok_typed _ Hok) Auth). discriminate.
    + unfold query_data. rewrite Auth. cbn. intros [= <-]. left.
      now apply (A token).
  - unfold simulate_missions.
    destruct (get_current_user st token) eqn:Auth; cbn;
      [|intros [= <-]; left; now apply (A token)].
    destruct (simulate_loop (Z.to_nat num) (missions_db st) [] g)
      as [[db created] g']. discriminate.
  - unfold get_simulations. destruct (get_current_user st token) eqn:Auth;
      cbn; [discriminate|]. intros [= <-]. left. now apply (A token).
Qed.

(** ** Uploads are write-only *)

Lemma fst_reads {A : Type} (wrap : A → response) (st : State)
    (r : result A) :
  fst (reads wrap st r)
  = match r with Ok a => wrap a | Raise e => RespError e end.
Proof. now destruct r. Qed.

Lemma fst_writes {A : Type} (wrap : A → response) (st : State)
    (r : result (A * State)) :
  fst (writes wrap st r)
  = match r with Ok (a, _) => wrap a | Raise e => RespError e end.
Proof. now destruct r as [[a s]|e]. Qed.

(** X16: no operation reads the upload log: after an upload, every request
    is answered exactly as it would have been without the upload.  In
    particular an uploaded observation never shows in a query or a status
    lookup, and its [mission_id] is not checked against the missions. *)
Theorem upload_is_invisible (st : State) (data : UploadData.t)
    (token : string) (req : request) :
  fst (handle req (snd (handle (ReqUpload data token) st)))
  = fst (handle req st).
Proof.
  cbn [handle]. unfold upload_data.
  destruct (get_current_user st token); [|reflexivity].
  cbn [mbind result_bind writes snd].
  destruct req as [user salt|credentials|tok|d tok|mid tok|sd ty lat lon tok
                  |num tok g now|tok]; cbn [handle];
    rewrite ?fst_reads, ?fst_writes; try reflexivity.
  - unfold signup. cbn [users_db].
    destruct (users_db st !! UserSignup.email user); [done|].
    now destruct (hash_password (UserSignup.password user) salt).
  - unfold upload_data.
    match goal with
    | |- context [get_current_user (mk_state ?a ?b ?c ?e) tok] =>
        rewrite (get_current_user_same_users st (mk_state a b c e) tok
                   eq_refl)
    end.
    now destruct (get_current_user st tok).
  - unfold simulate_missions.
    match goal with
    | |- context [get_current_user (mk_state ?a ?b ?c ?e) tok] =>
        rewrite (get_current_user_same_users st (mk_state a b c e) tok
                   eq_refl)
    end.
    destruct (get_current_user st tok); [|reflexivity].
    cbn [mbind result_bind missions_db].
    now destruct (simulate_loop (Z.to_nat num) (missions_db st) [] g)
      as [[db created] g'].
Qed.

End Errors.

Lemma unauthenticated_request_rejected_witness :
  handle (L := clear_libs)
         (ReqSimulate 5 "garbage" example_rng example_now) fleet_state
  = (RespError (HTTPException 401 "Invalid or expired token"), fleet_state).
Proof.
  exact (unauthenticated_request_rejected (L := clear_libs) fleet_state
           (ReqSimulate 5 "garbage" example_rng example_now) "garbage" _
           eq_refl eq_refl).
Defined.

Lemma errors_are_expected_witness :
  expected_error (mission_not_found "M9999")
  ∨ raised_by_library (L := clear_libs)
      (ReqMissionStatus "M9999" alice_token) fleet_state
      (mission_not_found "M9999").
Proof.
  exact (errors_are_expected (L := clear_libs) fleet_state
           (ReqMissionStatus "M9999" alice_token) _
           fleet_state_reachable eq_refl).
Defined.

(** ** Order and size of a query result *)

Lemma filter_sublist {A : Type} (p : A → bool) (l : list A) :
  sublist (List.filter p l) l.
Proof.
  induction l as [|x l IH]; cbn; [constructor|].
  destruct (p x); now constructor.
Qed.

Lemma filter_sublist_mono {A : Type} (p q : A → bool) (l : list A) :
  (∀ x, p x = true → q x = true) →
  sublist (List.filter p l) (List.filter q l).
Proof.
  intros Hpq. induction l as [|x l IH]; cbn; [constructor|].
  destruct (p x) eqn:Px.
  - rewrite (Hpq x Px). now constructor.
  - destruct (q x); [now constructor | exact IH].
Qed.

Lemma selects_true_iff (sd ty : option string) (lat lon : option pyfloat)
    (m : Mission) :
  selects sd ty lat lon m = true
  ↔ selects sd None None None m = true ∧ selects None ty None None m = true
    ∧ selects None None lat None m = true
    ∧ selects None None None lon m = true.
Proof. rewrite selects_split, !andb_true_iff. tauto. Qed.

Section QueryOrder.
Context `{L : Libs}.

(** X17: in a reachable state and for an authenticated caller, the results
    of a query are a subsequence of the stored missions, in storage order,
    so [total_found] never exceeds the number of stored missions; and they
    are a subsequence of the results of the same query with any one of
    its options dropped: an option can only remove results. *)
Theorem query_results_in_storage_order (st : State)
    (start_date sensor_type : option string) (lat lon : option pyfloat)
    (token : string) (user : User.t) :
  reachable st → get_current_user st token = Ok user →
  ∃ r r1 r2 r3 r4,
    query_data start_date sensor_type lat lon token st = Ok r
    ∧ query_data None sensor_type lat lon token st = Ok r1
    ∧ query_data start_date None lat lon token st = Ok r2
    ∧ query_data start_date sensor_type None lon token st = Ok r3
    ∧ query_data start_date sensor_type lat None token st = Ok r4
    ∧ sublist (results r) (dict_values (missions_db st))
    ∧ 0 ≤ total_found r ≤ Z.of_nat (length (missions_db st))
    ∧ sublist (results r) (results r1) ∧ sublist (results r) (results r2)
    ∧ sublist (results r) (results r3) ∧ sublist (results r) (results r4).
Proof.
  intros R Auth. pose proof (reachable_store_ok st R) as Hok.
  pose proof (store_ok_typed _ Hok) as T.
  rewrite !(query_data_typed _ _ _ _ token st user T Auth).
  eexists _, _, _, _, _. repeat (split; [reflexivity|]).
  cbn [results total_found]. unfold selected.
  cbn [f_start_date f_sensor_type f_lat f_lon].
  split; [apply filter_sublist|]. split.
  - pose proof (sublist_length _ _
                  (filter_sublist
                     (selects (given start_date) (given sensor_type) lat lon)
                     (dict_values (missions_db st)))) as Len.
    unfold dict_values in Len at 2. rewrite length_map in Len. lia.
  - repeat split; apply filter_sublist_mono; intros m Hm;
      apply selects_true_iff in Hm as (H1 & H2 & H3 & H4);
      apply selects_true_iff;
      repeat split; first [assumption | reflexivity].
Qed.

End QueryOrder.

Lemma query_results_in_storage_order_witness :
  ∃ r r1 r2 r3 r4,
    query_data (L := clear_libs) (Some "2025-06") (Some "multispectral")
               None None alice_token fleet_state = Ok r
    ∧ query_data (L := clear_libs) None (Some "multispectral") None None
                 alice_token fleet_state = Ok r1
    ∧ query_data (L := clear_libs) (Some "2025-06") None None None
                 alice_token fleet_state = Ok r2
    ∧ query_data (L := clear_libs) (Some "2025-06") (Some "multispectral")
                 None None alice_token fleet_state = Ok r3
    ∧ query_data (L := clear_libs) (Some "2025-06") (Some "multispectral")
                 None None alice_token fleet_state = Ok r4
    ∧ sublist (results r) (dict_values (missions_db fleet_state))
    ∧ 0 ≤ total_found r ≤ Z.of_nat (length (missions_db fleet_state))
    ∧ sublist (results r) (results r1) ∧ sublist (results r) (results r2)
    ∧ sublist (results r) (results r3) ∧ sublist (results r) (results r4).
Proof.
  exact (query_results_in_storage_order (L := clear_libs) fleet_state
           (Some "2025-06") (Some "multispectral") None None alice_token _
           fleet_state_reachable alice_authenticated).
Defined.
